(** * Column auto-mapping ([utils/column_mapper.py]): a shallow embedding

    The development follows the class [ColumnMapper]: its constants and the
    three schema catalogs, the constructor, the name matcher
    ([normalize_column_name], [calculate_similarity], [find_best_match],
    [auto_map_columns]), validation ([get_missing_columns],
    [validate_mapping]), the column profiler and type scorer
    ([analyze_column_data], [infer_column_type]), the hybrid resolver
    ([hybrid_map_columns]) and [apply_mapping].

    Conventions of the embedding.
    - A Python [str] is a [string]; a literal holds the UTF-8 bytes of the
      source text.  Lengths and similarity are taken over characters (code
      points), see [chars].
    - A Python [dict] is an association list in insertion order with unique
      keys ([dset] overwrites in place, as Python does).
    - A Python [int] is a [Z]; a Python [float] is an exact rational [Q]
      (binary rounding is not modelled).
    - A raised exception is the left summand of [result]; a function with
      no raising operation returns its value directly.
    - Logging has no effect on any result and is left out.
    - The functions of other libraries the class calls are parameters of
      the mapper: [fuzz.ratio], [pd.to_datetime] and [str] of a number.
      A model of [fuzz.ratio] and a date recogniser instantiate them on the
      inputs of the repository's tests. *)

From Stdlib Require Import ZArith QArith Qround List String Ascii Bool Lia Lqa.
From Stdlib Require Import Sorting.Sorted Sorting.Permutation.
Import ListNotations.

Open Scope string_scope.
Open Scope list_scope.
Open Scope Z_scope.

(** ** Exceptions and the error monad *)

Inductive exn : Type :=
| ValueError (msg : string)
| KeyError (key : string)
| AttributeError (msg : string)
| ZeroDivisionError
| IndexError (msg : string).

Definition result (A : Type) : Type := (exn + A)%type.

Definition ret {A : Type} (a : A) : result A := inr a.
Definition raise {A : Type} (e : exn) : result A := inl e.

Definition bind {A B : Type} (m : result A) (k : A -> result B) : result B :=
  match m with
  | inl e => inl e
  | inr a => k a
  end.

Notation "x <- m ;; k" := (bind m (fun x => k))
  (at level 61, m at next level, right associativity).

(** A loop whose body may raise. *)
Fixpoint foldM {A B : Type} (f : B -> A -> result B) (l : list A) (acc : B)
  : result B :=
  match l with
  | [] => ret acc
  | x :: l' => acc' <- f acc x ;; foldM f l' acc'
  end.

(** [returns m] holds when the call completes without raising. *)
Definition returns {A : Type} (m : result A) : Prop := exists a, m = inr a.

(** ** Dictionaries *)

Section Dict.
Context {V : Type}.

Definition dict : Type := list (string * V).

Fixpoint dget (d : dict) (k : string) : option V :=
  match d with
  | [] => None
  | (k', v) :: d' => if String.eqb k' k then Some v else dget d' k
  end.

Definition dmem (k : string) (d : dict) : bool :=
  match dget d k with Some _ => true | None => false end.

(** [d[k] = v]: an existing key keeps its position, a new key goes last. *)
Fixpoint dset (k : string) (v : V) (d : dict) : dict :=
  match d with
  | [] => [(k, v)]
  | (k', v') :: d' =>
      if String.eqb k' k then (k', v) :: d' else (k', v') :: dset k v d'
  end.

(** [d.get(k, default)] *)
Definition dget_default (d : dict) (k : string) (default : V) : V :=
  match dget d k with Some v => v | None => default end.

Definition keys (d : dict) : list string := map fst d.
Definition values (d : dict) : list V := map snd d.
End Dict.

Arguments dict : clear implicits.

(** ** Class constants *)

Definition MIN_SIMILARITY_THRESHOLD : Z := 50.
Definition ID_UNIQUE_RATIO_THRESHOLD : Q := 9 # 10.
Definition DATE_PARSE_RATIO_THRESHOLD : Q := 7 # 10.

Definition TEXT_LENGTH_LONG : Z := 50.
Definition TEXT_LENGTH_MEDIUM : Z := 20.

Definition SCORE_HIGH : Z := 90.
Definition SCORE_MEDIUM_HIGH : Z := 80.
Definition SCORE_MEDIUM : Z := 70.
Definition SCORE_MEDIUM_LOW : Z := 60.
Definition SCORE_LOW : Z := 30.

Definition RATING_MIN : Z := 0.
Definition RATING_MAX : Z := 10.

(** ** Schema catalogs *)

Record column_config : Type := mk_config {
  names : list string;
  type : string;
  required : bool
}.

Definition catalog : Type := dict column_config.

Definition ECOMMERCE_COLUMNS : catalog :=
  [ ("customerid",
     mk_config ["customerid"; "customer_id"; "customer"; "cust_id"; "user_id";
                "userid"; "고객ID"; "고객아이디"; "회원ID"] "id" true);
    ("invoicedate",
     mk_config ["invoicedate"; "invoice_date"; "date"; "order_date";
                "orderdate"; "purchase_date"; "주문일"; "구매일"; "날짜"]
               "date" true);
    ("quantity",
     mk_config ["quantity"; "qty"; "amount"; "count"; "수량"; "개수"]
               "numeric" true);
    ("unitprice",
     mk_config ["unitprice"; "unit_price"; "price"; "amount"; "가격"; "단가";
                "금액"] "numeric" true) ].

Definition REVIEW_COLUMNS : catalog :=
  [ ("review_text",
     mk_config ["review"; "text"; "comment"; "review_text"; "content"; "리뷰";
                "내용"; "댓글"; "평가"] "text" true);
    ("rating",
     mk_config ["rating"; "score"; "star"; "point"; "평점"; "별점"; "점수"]
               "rating" false);
    ("date",
     mk_config ["date"; "review_date"; "created_at"; "날짜"; "작성일"]
               "date" false) ].

Definition SALES_COLUMNS : catalog :=
  [ ("date",
     mk_config ["date"; "sales_date"; "order_date"; "invoicedate"; "날짜";
                "판매일"; "주문일"] "date" true);
    ("product",
     mk_config ["product"; "product_name"; "item"; "description"; "상품";
                "제품"; "상품명"] "text" true);
    ("quantity",
     mk_config ["quantity"; "qty"; "amount"; "수량"; "개수"] "numeric" true);
    ("price",
     mk_config ["price"; "unitprice"; "unit_price"; "amount"; "가격"; "단가"]
               "numeric" true) ].

Definition AVAILABLE_DATA_TYPES : list string := ["ecommerce"; "review"; "sales"].

(** ** The constructor *)

Record ColumnMapper : Type := mk_mapper {
  data_type : string;
  standard_columns : catalog
}.

(** [sep.join(l)] *)
Fixpoint join (sep : string) (l : list string) : string :=
  match l with
  | [] => ""
  | [s] => s
  | s :: l' => (s ++ sep ++ join sep l')%string
  end.

Definition unknown_data_type_message (data_type : string) : string :=
  ("Unknown data type: '" ++ data_type ++ "'. " ++
   "Available types: " ++ join ", " AVAILABLE_DATA_TYPES)%string.

Definition __init__ (data_type : string) : result ColumnMapper :=
  if String.eqb data_type "ecommerce" then
    ret (mk_mapper data_type ECOMMERCE_COLUMNS)
  else if String.eqb data_type "review" then
    ret (mk_mapper data_type REVIEW_COLUMNS)
  else if String.eqb data_type "sales" then
    ret (mk_mapper data_type SALES_COLUMNS)
  else
    raise (ValueError (unknown_data_type_message data_type)).

(** ** Strings *)

Definition lower_ascii (c : ascii) : ascii :=
  let n := N_of_ascii c in
  if ((65 <=? n) && (n <=? 90))%N then ascii_of_N (n + 32) else c.

(** [s.lower()], on the letters A-Z; the Hangul of the catalogs has no case. *)
Fixpoint lower (s : string) : string :=
  match s with
  | EmptyString => EmptyString
  | String c s' => String (lower_ascii c) (lower s')
  end.

(** [s.replace(c, '')] for a one-character [c]. *)
Fixpoint remove_char (c : ascii) (s : string) : string :=
  match s with
  | EmptyString => EmptyString
  | String c' s' =>
      if Ascii.eqb c' c then remove_char c s' else String c' (remove_char c s')
  end.

Definition normalize_column_name (col_name : string) : string :=
  let normalized := lower col_name in
  let normalized :=
    remove_char "-" (remove_char "_" (remove_char " " normalized)) in
  normalized.

Definition is_continuation (c : ascii) : bool :=
  let n := N_of_ascii c in ((128 <=? n) && (n <? 192))%N.

(** The characters of a text: each UTF-8 lead byte with its continuation
    bytes. *)
Fixpoint chars (s : string) : list string :=
  match s with
  | EmptyString => []
  | String c s' =>
      match s' with
      | EmptyString => [String c EmptyString]
      | String c' _ =>
          if is_continuation c' then
            match chars s' with
            | ch :: rest => String c ch :: rest
            | [] => [String c EmptyString]
            end
          else String c EmptyString :: chars s'
      end
  end.

(** [len(s)] *)
Definition py_len (s : string) : Z := Z.of_nat (List.length (chars s)).

(** ** Numbers *)

(** [int(x)]: truncation toward zero. *)
Definition py_int (x : Q) : Z := Z.quot (Qnum x) (Zpos (Qden x)).

(** Rounding to the nearest integer, ties to even. *)
Definition round_half_even (x : Q) : Z :=
  let f := Qfloor x in
  match Qcompare (x - inject_Z f) (1 # 2) with
  | Lt => f
  | Gt => f + 1
  | Eq => if Z.even f then f else f + 1
  end.

(** [round(x, 1)] *)
Definition py_round1 (x : Q) : Q :=
  (inject_Z (round_half_even (x * 10)) / 10)%Q.

(** [a / b] *)
Definition truediv (a b : Z) : result Q :=
  if b =? 0 then raise ZeroDivisionError else ret (inject_Z a / inject_Z b)%Q.

Definition Qmax_list (l : list Q) : option Q :=
  match l with
  | [] => None
  | x :: l' => Some (fold_left (fun m y => if Qle_bool m y then y else m) l' x)
  end.

Definition Qmin_list (l : list Q) : option Q :=
  match l with
  | [] => None
  | x :: l' => Some (fold_left (fun m y => if Qle_bool y m then y else m) l' x)
  end.

Definition Qsum (l : list Q) : Q := fold_left Qplus l 0%Q.

Definition Qmean (l : list Q) : option Q :=
  match l with
  | [] => None
  | _ => Some (Qsum l / inject_Z (Z.of_nat (List.length l)))%Q
  end.

(** ** [sorted(l, key=..., reverse=True)]

    Python's sort is stable, also with [reverse=True]: among equal keys the
    original order is kept.  A stable sort has one possible result, computed
    here by insertion. *)

Section Sorting.
Context {A : Type} (key : A -> Q).

Fixpoint insert_desc (x : A) (l : list A) : list A :=
  match l with
  | [] => [x]
  | y :: l' =>
      if Qle_bool (key y) (key x) then x :: y :: l'
      else y :: insert_desc x l'
  end.

Definition sorted_desc (l : list A) : list A :=
  fold_right insert_desc [] l.
End Sorting.

(** ** Data frames *)

(** A column of a numeric dtype holds numbers, NaN being [None]; a column of
    dtype [object] holds texts, a missing value being [None]. *)
Inductive Series : Type :=
| NumericSeries (dtype : string) (data : list (option Q))
| ObjectSeries (data : list (option string)).

Record DataFrame : Type := mk_frame {
  index_length : nat;
  frame_columns : list (string * Series)
}.

(** [df.columns] *)
Definition columns (df : DataFrame) : list string :=
  map fst (frame_columns df).

(** [len(df)] *)
Definition len_df (df : DataFrame) : Z := Z.of_nat (index_length df).

(** What [df[col_name]] selects: the column with that label, or a frame of
    all the columns that carry it when there are several. *)
Inductive selection : Type :=
| SelSeries (s : Series)
| SelFrame (cols : list Series).

(** [df[col_name]]: a label that no column carries raises [KeyError]. *)
Definition getitem (df : DataFrame) (col_name : string) : result selection :=
  match filter (fun c => String.eqb (fst c) col_name) (frame_columns df) with
  | [] => raise (KeyError col_name)
  | [(_, s)] => ret (SelSeries s)
  | cols => ret (SelFrame (map snd cols))
  end.

(** An attribute of a Series ([dtype], [str]) read off a selection: a frame
    has none of them. *)
Definition series_attr (sel : selection) (attr : string) : result Series :=
  match sel with
  | SelSeries s => ret s
  | SelFrame _ =>
      raise (AttributeError
               ("'DataFrame' object has no attribute '" ++ attr ++ "'")%string)
  end.

Fixpoint dropna {A : Type} (l : list (option A)) : list A :=
  match l with
  | [] => []
  | Some x :: l' => x :: dropna l'
  | None :: l' => dropna l'
  end.

Fixpoint count_na {A : Type} (l : list (option A)) : Z :=
  match l with
  | [] => 0
  | None :: l' => 1 + count_na l'
  | Some _ :: l' => count_na l'
  end.

Fixpoint distinct {A : Type} (eqb : A -> A -> bool) (l : list A) : list A :=
  match l with
  | [] => []
  | x :: l' => x :: filter (fun y => negb (eqb x y)) (distinct eqb l')
  end.

Definition series_dtype (s : Series) : string :=
  match s with
  | NumericSeries dtype _ => dtype
  | ObjectSeries _ => "object"
  end.

Definition is_numeric_dtype (s : Series) : bool :=
  match s with
  | NumericSeries _ _ => true
  | ObjectSeries _ => false
  end.

(** [s.nunique()]: distinct values, nulls left out. *)
Definition nunique (s : Series) : Z :=
  match s with
  | NumericSeries _ data => Z.of_nat (List.length (distinct Qeq_bool (dropna data)))
  | ObjectSeries data => Z.of_nat (List.length (distinct String.eqb (dropna data)))
  end.

(** [s.isna().sum()] *)
Definition isna_sum (s : Series) : Z :=
  match s with
  | NumericSeries _ data => count_na data
  | ObjectSeries data => count_na data
  end.

(** [s.isna().all()] *)
Definition isna_all (s : Series) : bool :=
  match s with
  | NumericSeries _ data => forallb (fun x => match x with None => true | Some _ => false end) data
  | ObjectSeries data => forallb (fun x => match x with None => true | Some _ => false end) data
  end.

Definition notna_at (s : Series) (i : nat) : bool :=
  match s with
  | NumericSeries _ data =>
      match nth_error data i with Some (Some _) => true | _ => false end
  | ObjectSeries data =>
      match nth_error data i with Some (Some _) => true | _ => false end
  end.

(** [len(frame.dropna())] for the frame of the columns [cols] over [n]
    rows: the rows with a value in every column. *)
Definition len_dropna_frame (n : nat) (cols : list Series) : Z :=
  Z.of_nat
    (List.length
       (filter (fun i => forallb (fun s => notna_at s i) cols) (seq 0 n))).

(** [s.min()], [s.max()], [s.mean()] of a numeric column: NaN ([None]) when
    no value is present. *)
Definition series_min (s : Series) : option Q :=
  match s with NumericSeries _ data => Qmin_list (dropna data) | ObjectSeries _ => None end.
Definition series_max (s : Series) : option Q :=
  match s with NumericSeries _ data => Qmax_list (dropna data) | ObjectSeries _ => None end.
Definition series_mean (s : Series) : option Q :=
  match s with NumericSeries _ data => Qmean (dropna data) | ObjectSeries _ => None end.

(** ** Column profiles and mapping entries *)

Record profile : Type := mk_profile {
  dtype : string;
  unique_ratio : Q;
  missing_ratio : Q;
  is_date : bool;
  is_numeric : bool;
  is_id : bool;
  numeric_range : option (option Q * option Q * option Q);
  avg_length : option Q
}.

Definition set_is_date (b : bool) (p : profile) : profile :=
  mk_profile (dtype p) (unique_ratio p) (missing_ratio p) b (is_numeric p)
             (is_id p) (numeric_range p) (avg_length p).
Definition set_is_numeric (b : bool) (p : profile) : profile :=
  mk_profile (dtype p) (unique_ratio p) (missing_ratio p) (is_date p) b
             (is_id p) (numeric_range p) (avg_length p).
Definition set_is_id (b : bool) (p : profile) : profile :=
  mk_profile (dtype p) (unique_ratio p) (missing_ratio p) (is_date p)
             (is_numeric p) b (numeric_range p) (avg_length p).
Definition set_numeric_range (r : option (option Q * option Q * option Q))
  (p : profile) : profile :=
  mk_profile (dtype p) (unique_ratio p) (missing_ratio p) (is_date p)
             (is_numeric p) (is_id p) r (avg_length p).
Definition set_avg_length (a : option Q) (p : profile) : profile :=
  mk_profile (dtype p) (unique_ratio p) (missing_ratio p) (is_date p)
             (is_numeric p) (is_id p) (numeric_range p) a.

(** An entry of a mapping result; a key the code leaves out is [None]. *)
Record mapping_entry : Type := mk_entry {
  user_column : string;
  confidence : Q;
  method : string;
  name_score : option Z;
  data_score : option Z;
  alternatives : option (list string)
}.

(** ** The mapper *)

Section Mapper.

(** [fuzz.ratio] of fuzzywuzzy. *)
Variable ratio : string -> string -> Z.

(** [pd.to_datetime(sample, errors='coerce').notna()]: which values parse
    as a date; [None] when the call raises [ValueError] or [TypeError]. *)
Variable to_datetime : list string -> option (list bool).

(** [str(x)] of a numeric cell. *)
Variable str_of_float : Q -> string.

Definition calculate_similarity (user_col standard_col : string) : Z :=
  let user_normalized := normalize_column_name user_col in
  let standard_normalized := normalize_column_name standard_col in
  let similarity := ratio user_normalized standard_normalized in
  similarity.

Definition find_best_match (self : ColumnMapper) (user_col : string)
  : option string * Z :=
  let '(best_match, best_score) :=
    fold_left
      (fun st (item : string * column_config) =>
         let '(std_col, config) := item in
         fold_left
           (fun (st : option string * Z) alias =>
              let '(best_match, best_score) := st in
              let score := calculate_similarity user_col alias in
              if best_score <? score then (Some std_col, score)
              else (best_match, best_score))
           (names config) st)
      (standard_columns self) (None, 0) in
  if MIN_SIMILARITY_THRESHOLD <=? best_score then (best_match, best_score)
  else (None, 0).

(** Truth value of an optional text: [None] and the empty text are false. *)
Definition truthy (s : option string) : bool :=
  match s with
  | Some s => negb (String.eqb s "")
  | None => false
  end.

(** Stage 1 of [auto_map_columns]: the candidates of each standard field. *)
Definition collect_candidates (self : ColumnMapper) (df : DataFrame)
  : dict (list (string * Z)) :=
  fold_left
    (fun candidates user_col =>
       let '(std_col, score) := find_best_match self user_col in
       match std_col with
       | Some std =>
           if truthy std_col then
             dset std (dget_default candidates std [] ++ [(user_col, score)])
                  candidates
           else candidates
       | None => candidates
       end)
    (columns df) [].

(** Stage 2 of [auto_map_columns]: one entry per standard field. *)
Definition resolve_candidates (candidates : dict (list (string * Z)))
  : result (dict mapping_entry) :=
  foldM
    (fun mapping_result (item : string * list (string * Z)) =>
       let '(std_col, user_cols) := item in
       match user_cols with
       | [(user_col, score)] =>
           ret (dset std_col
                  (mk_entry user_col (inject_Z score) "fuzzy" None None None)
                  mapping_result)
       | _ =>
           let sorted_cols :=
             sorted_desc (fun x => inject_Z (snd x)) user_cols in
           match sorted_cols with
           | [] => raise (IndexError "list index out of range")
           | (best_col, best_score) :: rest =>
               let alternatives := map fst rest in
               ret (dset std_col
                      (mk_entry best_col (inject_Z best_score) "fuzzy"
                                None None (Some alternatives))
                      mapping_result)
           end
       end)
    candidates [].

Definition auto_map_columns (self : ColumnMapper) (df : DataFrame)
  : result (dict mapping_entry) :=
  let candidates := collect_candidates self df in
  resolve_candidates candidates.

Definition get_missing_columns (self : ColumnMapper)
  (mapping : dict mapping_entry) : list string :=
  fold_left
    (fun missing (item : string * column_config) =>
       let '(std_col, config) := item in
       if required config && negb (dmem std_col mapping)
       then missing ++ [std_col] else missing)
    (standard_columns self) [].

Definition missing_message (col : string) : string :=
  ("필수 컬럼 '" ++ col ++ "'이(가) 매핑되지 않았습니다.")%string.

Definition validate_mapping (self : ColumnMapper)
  (mapping : dict mapping_entry) : bool * list string :=
  let missing := get_missing_columns self mapping in
  match missing with
  | _ :: _ =>
      let error_messages := map missing_message missing in
      (false, error_messages)
  | [] => (true, [])
  end.

(** [s.dropna().astype(str)] *)
Definition dropna_str (s : Series) : list string :=
  match s with
  | NumericSeries _ data => map str_of_float (dropna data)
  | ObjectSeries data => dropna data
  end.

(** [texts.str.len().mean()]; both callers pass at least one text. *)
Definition mean_len (texts : list string) : result Q :=
  truediv (fold_left Z.add (map py_len texts) 0)
          (Z.of_nat (List.length texts)).

Definition count_true (l : list bool) : Z :=
  Z.of_nat (List.length (filter (fun b => b) l)).

Definition analyze_column_data (df : DataFrame) (col_name : string)
  : result profile :=
  col_data <- getitem df col_name ;;
  let total_rows := len_df df in
  col_data <- series_attr col_data "dtype" ;;
  uniq <-
    (if 0 <? total_rows then truediv (nunique col_data) total_rows
     else ret 0%Q) ;;
  missing <-
    (if 0 <? total_rows then truediv (isna_sum col_data) total_rows
     else ret 0%Q) ;;
  let res :=
    mk_profile (series_dtype col_data) uniq missing
               false false false None None in
  let res :=
    if is_numeric_dtype col_data then
      let res := set_is_numeric true res in
      if negb (isna_all col_data) then
        set_numeric_range
          (Some (series_min col_data, series_max col_data,
                 series_mean col_data)) res
      else res
    else res in
  res <-
    (if negb (is_numeric res) then
       let sample := firstn 10 (dropna_str col_data) in
       let n := Z.of_nat (List.length sample) in
       if 0 <? n then
         res <-
           match to_datetime sample with
           | Some parsed =>
               let valid_dates := count_true parsed in
               r <- truediv valid_dates n ;;
               ret (if Qle_bool DATE_PARSE_RATIO_THRESHOLD r
                    then set_is_date true res else res)
           | None => ret res
           end ;;
         ret (match mean_len sample with
              | inr a => set_avg_length (Some a) res
              | inl _ => res
              end)
       else ret res
     else ret res) ;;
  ret (if Qle_bool ID_UNIQUE_RATIO_THRESHOLD (unique_ratio res)
       then set_is_id true res else res).

Definition infer_column_type (df : DataFrame) (col_name : string)
  (analysis : option profile) : result (dict Z) :=
  analysis <-
    match analysis with
    | None => analyze_column_data df col_name
    | Some analysis => ret analysis
    end ;;
  let scores : dict Z := [] in
  let scores :=
    if is_date analysis then
      let scores := dset "date" SCORE_HIGH scores in
      let scores :=
        if is_id analysis then dset "id" SCORE_LOW scores
        else dset "id" 0 scores in
      let scores := dset "numeric" 0 scores in
      let scores := dset "rating" 0 scores in
      let scores := dset "text" 0 scores in
      scores
    else scores in
  if is_numeric analysis then
    let scores := dset "numeric" SCORE_MEDIUM_HIGH scores in
    let scores :=
      match numeric_range analysis with
      | Some (Some min_val, Some max_val, _) =>
          if Qle_bool (inject_Z RATING_MIN) min_val
             && Qle_bool max_val (inject_Z RATING_MAX)
          then dset "rating" SCORE_MEDIUM scores
          else dset "rating" 0 scores
      | Some _ => dset "rating" 0 scores
      | None => dset "rating" 0 scores
      end in
    let scores :=
      if is_id analysis then dset "id" SCORE_HIGH scores
      else dset "id" (py_int (unique_ratio analysis * 50)) scores in
    let scores := dset "text" 0 scores in
    let scores := dset "date" 0 scores in
    ret scores
  else
    let scores := dset "numeric" 0 scores in
    let scores := dset "rating" 0 scores in
    let scores :=
      if is_id analysis then dset "id" SCORE_MEDIUM_HIGH scores
      else dset "id" (py_int (unique_ratio analysis * 30)) scores in
    scores <-
      match avg_length analysis with
      | Some avg_length =>
          if Qle_bool (inject_Z TEXT_LENGTH_LONG) avg_length then
            ret (dset "text" SCORE_MEDIUM_HIGH scores)
          else if Qle_bool (inject_Z TEXT_LENGTH_MEDIUM) avg_length then
            ret (dset "text" SCORE_MEDIUM_LOW scores)
          else ret (dset "text" SCORE_LOW scores)
      | None =>
          col <- getitem df col_name ;;
          match col with
          | SelSeries col =>
              let col_data := dropna_str col in
              if 0 <? Z.of_nat (List.length col_data) then
                avg_length <- mean_len col_data ;;
                if Qle_bool (inject_Z TEXT_LENGTH_LONG) avg_length then
                  ret (dset "text" SCORE_MEDIUM_HIGH scores)
                else if Qle_bool (inject_Z TEXT_LENGTH_MEDIUM) avg_length then
                  ret (dset "text" SCORE_MEDIUM_LOW scores)
                else ret (dset "text" SCORE_LOW scores)
              else ret scores
          | SelFrame cols =>
              if 0 <? len_dropna_frame (index_length df) cols then
                _ <- series_attr col "str" ;; ret scores
              else ret scores
          end
      end ;;
    let scores := dset "date" 0 scores in
    ret scores.

(** Stage 1 of [hybrid_map_columns]: every column profiled and scored
    once; a column whose analysis raises gets no scores. *)
Definition analyze_columns (df : DataFrame)
  : dict (option profile * dict Z) :=
  fold_left
    (fun column_analyses user_col =>
       match
         (analysis <- analyze_column_data df user_col ;;
          type_scores <- infer_column_type df user_col (Some analysis) ;;
          ret (analysis, type_scores))
       with
       | inr (analysis, type_scores) =>
           dset user_col (Some analysis, type_scores) column_analyses
       | inl _ => dset user_col (None, []) column_analyses
       end)
    (columns df) [].

(** The best similarity of a user column over the aliases of one field. *)
Definition best_name_score (config : column_config) (user_col : string) : Z :=
  fold_left
    (fun name_score alias =>
       let score := calculate_similarity user_col alias in
       Z.max name_score score)
    (names config) 0.

Definition combined (name_weight data_weight : Q) (name_score data_score : Z)
  : Q :=
  (inject_Z name_score * name_weight + inject_Z data_score * data_weight)%Q.

(** A candidate: the user column, its combined score, and the details
    [(name_score, data_score)]. *)
Definition candidate : Type := (string * Q * (Z * Z))%type.

(** Stage 2 of [hybrid_map_columns], for one standard field. *)
Definition field_candidates (df : DataFrame)
  (column_analyses : dict (option profile * dict Z))
  (name_weight data_weight : Q) (config : column_config)
  : result (list candidate) :=
  let std_type := type config in
  foldM
    (fun (acc : list candidate) user_col =>
       let name_score := best_name_score config user_col in
       match dget column_analyses user_col with
       | None => raise (KeyError user_col)
       | Some (_, type_scores) =>
           let data_score := dget_default type_scores std_type 0 in
           let combined_score :=
             combined name_weight data_weight name_score data_score in
           if Qle_bool (inject_Z MIN_SIMILARITY_THRESHOLD) combined_score
           then ret (acc ++ [(user_col, combined_score,
                              (name_score, data_score))])
           else ret acc
       end)
    (columns df) [].

(** Stage 3 of [hybrid_map_columns], for one standard field. *)
Definition resolve_field (std_col : string) (user_cols : list candidate)
  (mapping_result : dict mapping_entry) : dict mapping_entry :=
  match user_cols with
  | [] => mapping_result
  | [(user_col, combined_score, details)] =>
      dset std_col
           (mk_entry user_col (py_round1 combined_score) "hybrid"
                     (Some (fst details)) (Some (snd details)) None)
           mapping_result
  | _ =>
      let sorted_cols := sorted_desc (fun x => snd (fst x)) user_cols in
      match sorted_cols with
      | [] => mapping_result
      | (best_col, best_score, best_details) :: rest =>
          let alternatives := map (fun x => fst (fst x)) rest in
          dset std_col
               (mk_entry best_col (py_round1 best_score) "hybrid"
                         (Some (fst best_details)) (Some (snd best_details))
                         (Some alternatives))
               mapping_result
      end
  end.

Definition hybrid_map_columns (self : ColumnMapper) (df : DataFrame)
  (name_weight data_weight : Q) (max_columns : Z)
  : result (dict mapping_entry) :=
  let column_analyses := analyze_columns df in
  candidates <-
    foldM
      (fun (candidates : dict (list candidate))
           (item : string * column_config) =>
         let '(std_col, config) := item in
         user_cols <-
           field_candidates df column_analyses name_weight data_weight
                            config ;;
         ret (dset std_col user_cols candidates))
      (standard_columns self) [] ;;
  let mapping_result :=
    fold_left
      (fun mapping_result (item : string * list candidate) =>
         let '(std_col, user_cols) := item in
         resolve_field std_col user_cols mapping_result)
      candidates [] in
  ret mapping_result.

Definition get_mapping_confidence_level (confidence : Q) : string :=
  if Qle_bool 80 confidence then "high"
  else if Qle_bool 65 confidence then "medium"
  else "low".

End Mapper.

(** ** The object store and [apply_mapping]

    Data frames are objects: a frame is reached through a reference into the
    store, [rename(..., inplace=True)] overwrites the frame of a reference,
    and selection and [copy()] allocate new frames. *)

Definition heap : Type := list DataFrame.
Definition ref : Type := nat.

Definition deref (h : heap) (r : ref) : DataFrame := nth r h (mk_frame 0 []).

Definition alloc (h : heap) (df : DataFrame) : heap * ref :=
  (h ++ [df], List.length h).

Fixpoint store (h : heap) (r : ref) (df : DataFrame) : heap :=
  match h, r with
  | [], _ => []
  | _ :: h', O => df :: h'
  | x :: h', S r' => x :: store h' r' df
  end.

(** [df[labels]] for a list of labels: the columns carrying each label, in
    the order of the labels; a label carried by no column raises. *)
Definition getitem_columns (df : DataFrame) (labels : list string)
  : result DataFrame :=
  cols <-
    foldM
      (fun acc label =>
         match filter (fun c => String.eqb (fst c) label) (frame_columns df) with
         | [] => raise (KeyError label)
         | found => ret (acc ++ found)
         end)
      labels [] ;;
  ret (mk_frame (index_length df) cols).

(** The frame [df.rename(columns=d)] leaves behind. *)
Definition rename_columns (d : dict string) (df : DataFrame) : DataFrame :=
  mk_frame (index_length df)
           (map (fun c => (dget_default d (fst c) (fst c), snd c))
                (frame_columns df)).

Definition build_rename_dict (mapping : dict mapping_entry) : dict string :=
  fold_left
    (fun rename_dict (item : string * mapping_entry) =>
       let '(std_col, info) := item in
       let user_col := user_column info in
       dset user_col std_col rename_dict)
    mapping [].

Definition apply_mapping (h : heap) (df : ref) (mapping : dict mapping_entry)
  : result (heap * ref) :=
  let rename_dict := build_rename_dict mapping in
  let mapped_cols := keys rename_dict in
  selected <- getitem_columns (deref h df) mapped_cols ;;
  let '(h, selection) := alloc h selected in
  let '(h, df_mapped) := alloc h (deref h selection) in
  let h := store h df_mapped (rename_columns rename_dict (deref h df_mapped)) in
  ret (h, df_mapped).

(** ** The similarity ratio

    [fuzz.ratio] is a function of the fuzzywuzzy library, not of this
    repository.  The definitions below follow the library: equal texts score
    100, an empty text scores 0, and otherwise the score is
    [round(100 * 2M / T)], where [T] counts the characters of both texts
    and [M] the characters in the matching blocks of
    [difflib.SequenceMatcher]: the longest common block that starts
    earliest in the first text (then earliest in the second), and
    recursively the blocks to its left and to its right.  No element is
    junk, as holds for a second text of fewer than 200 characters. *)

Fixpoint common_prefix (a b : list string) : nat :=
  match a, b with
  | x :: a', y :: b' => if String.eqb x y then S (common_prefix a' b') else O
  | _, _ => O
  end.

Definition better (best : nat * nat * nat) (i j k : nat) : nat * nat * nat :=
  if (snd best <? k)%nat then (i, j, k) else best.

Fixpoint scan_second (a : list string) (i : nat) (b : list string) (j : nat)
  (best : nat * nat * nat) : nat * nat * nat :=
  match b with
  | [] => best
  | _ :: b' => scan_second a i b' (S j) (better best i j (common_prefix a b))
  end.

Fixpoint scan_first (a : list string) (i : nat) (b : list string)
  (best : nat * nat * nat) : nat * nat * nat :=
  match a with
  | [] => best
  | _ :: a' => scan_first a' (S i) b (scan_second a i b O best)
  end.

Definition find_longest_match (a b : list string) : nat * nat * nat :=
  scan_first a O b (O, O, O).

Fixpoint matching_size (fuel : nat) (a b : list string) : nat :=
  match fuel with
  | O => O
  | S fuel' =>
      let '(i, j, k) := find_longest_match a b in
      match k with
      | O => O
      | S _ =>
          (matching_size fuel' (firstn i a) (firstn j b) + k
           + matching_size fuel' (skipn (i + k) a) (skipn (j + k) b))%nat
      end
  end.

Definition fuzz_ratio (s1 s2 : string) : Z :=
  if String.eqb s1 s2 then 100
  else
    let a := chars s1 in
    let b := chars s2 in
    match a, b with
    | [], _ => 0
    | _, [] => 0
    | _, _ =>
        let m := Z.of_nat (matching_size (S (List.length a)) a b) in
        let t := Z.of_nat (List.length a + List.length b) in
        round_half_even (100 * (inject_Z (2 * m) / inject_Z t))%Q
    end.

(** ** Instances of the two pandas functions

    A recogniser of dates written [YYYY-MM-DD], one of the formats
    [pd.to_datetime] parses, and [str] of a number with no fractional
    part. *)

Definition is_digit (c : ascii) : bool :=
  let n := N_of_ascii c in ((48 <=? n) && (n <=? 57))%N.

Definition iso_date (s : string) : bool :=
  match list_ascii_of_string s with
  | [y1; y2; y3; y4; d1; m1; m2; d2; a1; a2] =>
      forallb is_digit [y1; y2; y3; y4; m1; m2; a1; a2]
      && Ascii.eqb d1 "-" && Ascii.eqb d2 "-"
  | _ => false
  end.

Definition to_datetime_iso (sample : list string) : option (list bool) :=
  Some (map iso_date sample).

Fixpoint digits (fuel : nat) (n : N) (acc : string) : string :=
  match fuel with
  | O => acc
  | S fuel' =>
      let acc := String (ascii_of_N (48 + N.modulo n 10)) acc in
      if (n <? 10)%N then acc else digits fuel' (N.div n 10) acc
  end.

Definition str_of_Z (z : Z) : string :=
  let n := Z.to_N (Z.abs z) in
  let d := digits (S (N.to_nat (N.log2 n))) n "" in
  if z <? 0 then String "-" d else d.

(** [str(float(z))] is [str(z)] followed by [.0]. *)
Definition str_of_float_int (x : Q) : string :=
  (str_of_Z (py_int x) ++ ".0")%string.

(** ** Inputs of the repository's tests *)

(** [test_type_inference_priority]: ten distinct dates. *)
Definition order_dates : DataFrame :=
  mk_frame 10
    [ ("OrderDate",
       ObjectSeries
         (map Some
            [ "2024-01-01"; "2024-01-02"; "2024-01-03"; "2024-01-04";
              "2024-01-05"; "2024-01-06"; "2024-01-07"; "2024-01-08";
              "2024-01-09"; "2024-01-10" ])) ].

Definition order_dates_profile : profile :=
  mk_profile "object" 1 0 true false true None (Some 10%Q).

(** [test_all_missing_column]: a column with no value. *)
Definition all_missing : DataFrame :=
  mk_frame 3
    [ ("CustomerID", NumericSeries "int64" [Some 1%Q; Some 2%Q; Some 3%Q]);
      ("Price", ObjectSeries [None; None; None]) ].

(** [test_analyze_rating_column] *)
Definition ratings : DataFrame :=
  mk_frame 10
    [ ("Rating",
       NumericSeries "int64"
         (map Some [5%Q; 4%Q; 3%Q; 5%Q; 2%Q; 4%Q; 5%Q; 3%Q; 4%Q; 5%Q])) ].





(** [test_hybrid_vs_name_only] *)
Definition hybrid_vs_name_only : DataFrame :=
  mk_frame 5
    [ ("user", ObjectSeries (map Some ["U001"; "U002"; "U003"; "U004"; "U005"]));
      ("timestamp",
       ObjectSeries (map Some ["2024-01-01"; "2024-01-02"; "2024-01-03";
                               "2024-01-04"; "2024-01-05"]));
      ("amount", NumericSeries "int64" (map Some [5%Q; 10%Q; 3%Q; 7%Q; 2%Q]));
      ("price_per_unit",
       NumericSeries "int64" (map Some [100%Q; 200%Q; 150%Q; 180%Q; 120%Q])) ].

(** [test_duplicate_mapping_detection]: [price] and [unit_price] compete. *)
Definition duplicate_mapping : DataFrame :=
  mk_frame 3
    [ ("CustomerID", NumericSeries "int64" (map Some [1%Q; 2%Q; 3%Q]));
      ("InvoiceDate",
       ObjectSeries (map Some ["2024-01-01"; "2024-01-02"; "2024-01-03"]));
      ("Quantity", NumericSeries "int64" (map Some [5%Q; 10%Q; 3%Q]));
      ("price", NumericSeries "int64" (map Some [100%Q; 200%Q; 150%Q]));
      ("unit_price", NumericSeries "int64" (map Some [100%Q; 200%Q; 150%Q])) ].

(** Two spellings of the same name over numeric columns with two and with
    one distinct value. *)
Definition near_tie : DataFrame :=
  mk_frame 4
    [ ("customerid", NumericSeries "int64" (map Some [1%Q; 1%Q; 2%Q; 2%Q]));
      ("CustomerID", NumericSeries "int64" (map Some [3%Q; 3%Q; 3%Q; 3%Q])) ].

Definition ecommerce : ColumnMapper := mk_mapper "ecommerce" ECOMMERCE_COLUMNS.

Definition unitprice_config : column_config :=
  mk_config ["unitprice"; "unit_price"; "price"; "amount"; "가격"; "단가";
             "금액"] "numeric" true.

(** A frame with the one numeric column [amount]. *)
Definition amount_only : DataFrame :=
  mk_frame 3 [("amount", NumericSeries "int64" (map Some [5%Q; 10%Q; 3%Q]))].

(** The mapping [hybrid_map_columns] returns for [hybrid_vs_name_only]
    with the default weights. *)
Definition hybrid_vs_name_only_result : dict mapping_entry :=
  [ ("customerid",
     mk_entry "user" (800 # 10) "hybrid" (Some 80) (Some 80)
              (Some ["amount"; "price_per_unit"; "timestamp"]));
    ("quantity",
     mk_entry "amount" (920 # 10) "hybrid" (Some 100) (Some 80)
              (Some ["price_per_unit"]));
    ("unitprice",
     mk_entry "amount" (920 # 10) "hybrid" (Some 100) (Some 80)
              (Some ["price_per_unit"])) ].

(** The mapping [auto_map_columns] returns for [duplicate_mapping]. *)
Definition duplicate_mapping_result : dict mapping_entry :=
  [ ("customerid", mk_entry "CustomerID" 100 "fuzzy" None None None);
    ("invoicedate", mk_entry "InvoiceDate" 100 "fuzzy" None None None);
    ("quantity", mk_entry "Quantity" 100 "fuzzy" None None None);
    ("unitprice", mk_entry "price" 100 "fuzzy" None None (Some ["unit_price"])) ].

(** * Properties *)

(** ** Dictionaries and loops *)

Section DictFacts.
Context {V : Type}.
Implicit Types (d : dict V) (k : string) (v : V).

Lemma dget_In d k v : dget d k = Some v -> In (k, v) d.
Proof.
  induction d as [|[k' v'] d IH]; simpl; [discriminate|].
  destruct (String.eqb_spec k' k) as [->|_].
  - intros [= ->]. now left.
  - intros H. right. now apply IH.
Qed.

Lemma dget_dset d k v k' :
  dget (dset k v d) k' = if String.eqb k k' then Some v else dget d k'.
Proof.
  induction d as [|[k0 v0] d IH]; simpl.
  - reflexivity.
  - destruct (String.eqb_spec k0 k) as [->|Hne]; simpl.
    + now destruct (String.eqb k k').
    + destruct (String.eqb_spec k0 k') as [->|_].
      * destruct (String.eqb_spec k k') as [->|_]; [contradiction|reflexivity].
      * apply IH.
Qed.

Lemma dset_In d k v k' v' :
  In (k', v') (dset k v d) -> (k' = k /\ v' = v) \/ In (k', v') d.
Proof.
  induction d as [|[k0 v0] d IH]; simpl.
  - intros [[= <- <-]|[]]. now left.
  - destruct (String.eqb_spec k0 k) as [->|_]; simpl.
    + intros [[= <- <-]|H]; [now left | right; now right].
    + intros [H|H]; [right; now left|].
      destruct (IH H) as [?|?]; [now left | right; now right].
Qed.

Lemma dget_None_notin d k : dget d k = None -> ~ In k (keys d).
Proof.
  induction d as [|[k' v'] d IH]; simpl; [tauto|].
  destruct (String.eqb_spec k' k) as [->|Hne]; [discriminate|].
  intros H [Heq|Hin]; [contradiction | now apply IH].
Qed.

Lemma dset_fresh d k v : ~ In k (keys d) -> dset k v d = d ++ [(k, v)].
Proof.
  induction d as [|[k' v'] d IH]; simpl; [reflexivity|].
  intros H. destruct (String.eqb_spec k' k) as [->|_]; [tauto|].
  f_equal. apply IH. tauto.
Qed.

Lemma In_dget d k v : NoDup (keys d) -> In (k, v) d -> dget d k = Some v.
Proof.
  induction d as [|[k' v'] d IH]; simpl; [tauto|].
  intros Hnd [[= -> ->]|Hin].
  - now rewrite String.eqb_refl.
  - inversion Hnd as [|? ? Hnotin Hnd']; subst.
    destruct (String.eqb_spec k' k) as [->|_].
    + exfalso. apply Hnotin. change k with (fst (k, v)). now apply in_map.
    + now apply IH.
Qed.

Lemma dmem_true_iff d k : dmem k d = true <-> In k (keys d).
Proof.
  unfold dmem. destruct (dget d k) as [v|] eqn:E.
  - split; [intros _ | reflexivity].
    change k with (fst (k, v)). apply in_map. now apply dget_In.
  - split; [discriminate | intros H; now apply dget_None_notin in E].
Qed.
End DictFacts.

(** ** The constructor *)

(** C8.  A data type outside ['ecommerce'], ['review'], ['sales'] makes the
    constructor raise [ValueError] with a message that lists exactly these
    three names, whatever the requested name; for each of the three names
    the constructor returns a mapper bound to the catalog of that domain. *)
Theorem init_binds_catalog_or_fails :
  __init__ "ecommerce" = inr (mk_mapper "ecommerce" ECOMMERCE_COLUMNS)
  /\ __init__ "review" = inr (mk_mapper "review" REVIEW_COLUMNS)
  /\ __init__ "sales" = inr (mk_mapper "sales" SALES_COLUMNS)
  /\ forall data_type,
       ~ In data_type AVAILABLE_DATA_TYPES ->
       __init__ data_type =
         inl (ValueError
                ("Unknown data type: '" ++ data_type
                 ++ "'. Available types: ecommerce, review, sales")%string).
Proof.
  repeat split; try reflexivity.
  intros data_type Hnot. unfold __init__.
  destruct (String.eqb_spec data_type "ecommerce") as [->|_];
    [exfalso; apply Hnot; simpl; tauto|].
  destruct (String.eqb_spec data_type "review") as [->|_];
    [exfalso; apply Hnot; simpl; tauto|].
  destruct (String.eqb_spec data_type "sales") as [->|_];
    [exfalso; apply Hnot; simpl; tauto|].
  reflexivity.
Qed.

Lemma init_invalid_type_witness :
  ~ In "invalid_type" AVAILABLE_DATA_TYPES
  /\ __init__ "invalid_type" =
       inl (ValueError
              "Unknown data type: 'invalid_type'. Available types: ecommerce, review, sales").
Proof.
  split.
  - simpl. intros [H|[H|[H|[]]]]; discriminate H.
  - apply (proj2 (proj2 (proj2 init_binds_catalog_or_fails))).
    simpl. intros [H|[H|[H|[]]]]; discriminate H.
Defined.

Lemma filter_none {A : Type} (f : A -> bool) (l : list A) :
  (forall x, In x l -> f x = false) -> filter f l = [].
Proof.
  induction l as [|x l IH]; simpl; intros H; [reflexivity|].
  rewrite (H x (or_introl eq_refl)). apply IH. intros y Hy. apply H. now right.
Qed.

(** ** Validation *)

Definition is_missing (mapping : dict mapping_entry)
  (item : string * column_config) : bool :=
  required (snd item) && negb (dmem (fst item) mapping).

Lemma get_missing_fold mapping (l : catalog) (acc : list string) :
  fold_left
    (fun missing (item : string * column_config) =>
       let '(std_col, config) := item in
       if required config && negb (dmem std_col mapping)
       then missing ++ [std_col] else missing)
    l acc
  = acc ++ map fst (filter (is_missing mapping) l).
Proof.
  revert acc. induction l as [|[f cfg] l IH]; intros acc; simpl.
  - now rewrite app_nil_r.
  - rewrite IH. unfold is_missing at 2. simpl.
    destruct (required cfg && negb (dmem f mapping)); simpl.
    + now rewrite <- app_assoc.
    + reflexivity.
Qed.

Lemma get_missing_columns_filter (self : ColumnMapper) mapping :
  get_missing_columns self mapping =
    map fst (filter (is_missing mapping) (standard_columns self)).
Proof. unfold get_missing_columns. now rewrite get_missing_fold. Qed.

(** C5.  [validate_mapping] returns [(True, [])] when every required field
    of the catalog is a key of the mapping; when a required field is not a
    key, it returns [False] together with a message that names the field;
    and every message it returns names a required field that is missing.
    The function has no raising path: its result is always a pair. *)
Theorem validate_mapping_reports_missing (self : ColumnMapper)
  (mapping : dict mapping_entry) :
  ((forall f cfg, In (f, cfg) (standard_columns self) ->
                  required cfg = true -> dmem f mapping = true) ->
   validate_mapping self mapping = (true, []))
  /\ (forall f cfg,
        In (f, cfg) (standard_columns self) ->
        required cfg = true -> dmem f mapping = false ->
        fst (validate_mapping self mapping) = false
        /\ In ("필수 컬럼 '" ++ f ++ "'이(가) 매핑되지 않았습니다.")%string
              (snd (validate_mapping self mapping)))
  /\ (forall msg,
        In msg (snd (validate_mapping self mapping)) ->
        exists f cfg,
          In (f, cfg) (standard_columns self) /\ required cfg = true
          /\ dmem f mapping = false
          /\ msg = ("필수 컬럼 '" ++ f ++ "'이(가) 매핑되지 않았습니다.")%string).
Proof.
  unfold validate_mapping. rewrite get_missing_columns_filter.
  split; [|split].
  - intros Hall.
    assert (E : filter (is_missing mapping) (standard_columns self) = []).
    { apply filter_none.
      intros [f cfg] Hin. unfold is_missing. simpl.
      destruct (required cfg) eqn:Hreq; [|reflexivity].
      now rewrite (Hall f cfg Hin Hreq). }
    now rewrite E.
  - intros f cfg Hin Hreq Hmem.
    assert (Hf : In f (map fst (filter (is_missing mapping) (standard_columns self)))).
    { change f with (fst (f, cfg)). apply in_map. apply filter_In. split; [exact Hin|].
      unfold is_missing. simpl. now rewrite Hreq, Hmem. }
    destruct (map fst (filter (is_missing mapping) (standard_columns self)))
      as [|m0 ms] eqn:E; [destruct Hf|].
    split; [reflexivity|].
    apply (in_map missing_message) in Hf. exact Hf.
  - intros msg Hmsg.
    destruct (map fst (filter (is_missing mapping) (standard_columns self)))
      as [|m0 ms] eqn:E; [destruct Hmsg|].
    change (In msg (map missing_message (m0 :: ms))) in Hmsg.
    apply in_map_iff in Hmsg. destruct Hmsg as (f & <- & Hf).
    rewrite <- E in Hf. apply in_map_iff in Hf. destruct Hf as ([f' cfg] & <- & Hf).
    apply filter_In in Hf. destruct Hf as [Hin Hmiss].
    unfold is_missing in Hmiss. simpl in Hmiss.
    apply andb_true_iff in Hmiss. destruct Hmiss as [Hreq Hmem].
    exists f', cfg. repeat split; try assumption.
    now destruct (dmem f' mapping).
Qed.

(** The scenario of the tests: no quantity-like column was mapped. *)
Definition mapping_without_quantity : dict mapping_entry :=
  [ ("customerid", mk_entry "CustomerID" 100 "fuzzy" None None None);
    ("invoicedate", mk_entry "InvoiceDate" 100 "fuzzy" None None None);
    ("unitprice", mk_entry "UnitPrice" 100 "fuzzy" None None None) ].

Lemma validate_mapping_quantity_witness :
  fst (validate_mapping (mk_mapper "ecommerce" ECOMMERCE_COLUMNS)
                        mapping_without_quantity) = false
  /\ In "필수 컬럼 'quantity'이(가) 매핑되지 않았습니다."
        (snd (validate_mapping (mk_mapper "ecommerce" ECOMMERCE_COLUMNS)
                               mapping_without_quantity)).
Proof.
  apply (proj1 (proj2 (validate_mapping_reports_missing
                         (mk_mapper "ecommerce" ECOMMERCE_COLUMNS)
                         mapping_without_quantity))
           "quantity"
           (mk_config ["quantity"; "qty"; "amount"; "count"; "수량"; "개수"]
                      "numeric" true)).
  - simpl. right. right. left. reflexivity.
  - reflexivity.
  - reflexivity.
Defined.

(** ** The name matcher *)

Lemma fold_left_ext {A B : Type} (f g : B -> A -> B) (l : list A) (acc : B) :
  (forall b a, f b a = g b a) -> fold_left f l acc = fold_left g l acc.
Proof.
  intros H. revert acc. induction l as [|x l IH]; intros acc; simpl.
  - reflexivity.
  - now rewrite H, IH.
Qed.

Lemma fold_left_flat_map {A B C : Type} (f : C -> B -> C) (g : A -> list B)
  (l : list A) (acc : C) :
  fold_left f (flat_map g l) acc =
    fold_left (fun acc x => fold_left f (g x) acc) l acc.
Proof.
  revert acc. induction l as [|x l IH]; intros acc; simpl.
  - reflexivity.
  - now rewrite fold_left_app, IH.
Qed.

Lemma fold_left_map {A B C : Type} (f : C -> B -> C) (h : A -> B)
  (l : list A) (acc : C) :
  fold_left f (map h l) acc = fold_left (fun acc x => f acc (h x)) l acc.
Proof.
  revert acc. induction l as [|x l IH]; intros acc; simpl; [reflexivity|apply IH].
Qed.

Section NameMatcherFacts.
Variable ratio : string -> string -> Z.
Variable self : ColumnMapper.

(** Every alias of the catalog with its owner and its similarity to the
    user column, in the order the loops visit them. *)
Definition alias_scores (user_col : string) : list (string * Z) :=
  flat_map
    (fun item : string * column_config =>
       map (fun alias => (fst item, calculate_similarity ratio user_col alias))
           (names (snd item)))
    (standard_columns self).

Definition keep_best (st : option string * Z) (p : string * Z)
  : option string * Z :=
  if snd st <? snd p then (Some (fst p), snd p) else st.

Lemma find_best_match_fold (user_col : string) :
  find_best_match ratio self user_col =
    let st := fold_left keep_best (alias_scores user_col) (None, 0) in
    if MIN_SIMILARITY_THRESHOLD <=? snd st then st else (None, 0).
Proof.
  unfold find_best_match.
  set (loop := fold_left _ (standard_columns self) _).
  assert (E : loop = fold_left keep_best (alias_scores user_col) (None, 0)).
  { unfold loop, alias_scores. rewrite fold_left_flat_map.
    apply fold_left_ext. intros st [f cfg]. simpl.
    rewrite fold_left_map. apply fold_left_ext.
    intros [bm bs] alias. reflexivity. }
  rewrite E. cbv zeta.
  destruct (fold_left keep_best (alias_scores user_col) (None, 0)) as [bm bs].
  reflexivity.
Qed.

Lemma keep_best_fold (l : list (string * Z)) (st : option string * Z) :
  let st' := fold_left keep_best l st in
  snd st <= snd st'
  /\ Forall (fun p => snd p <= snd st') l
  /\ (st' = st \/ exists f, fst st' = Some f /\ In (f, snd st') l).
Proof.
  revert st. induction l as [|[f s] l IH]; intros st; simpl.
  - repeat split; [lia | constructor | now left].
  - specialize (IH (keep_best st (f, s))).
    destruct IH as (Hle & Hall & Hor).
    assert (Hk : snd st <= snd (keep_best st (f, s))
                 /\ s <= snd (keep_best st (f, s))).
    { unfold keep_best. simpl.
      destruct (Z.ltb_spec (snd st) s); simpl; lia. }
    split; [lia|]. split.
    + constructor; [simpl; lia | exact Hall].
    + destruct Hor as [Heq | (g & Hg & Hin)].
      * rewrite Heq. unfold keep_best. simpl.
        destruct (Z.ltb_spec (snd st) s); simpl.
        -- right. exists f. split; [reflexivity | now left].
        -- now left.
      * right. exists g. split; [exact Hg | now right].
Qed.

Lemma In_alias_scores (user_col f : string) (s : Z) :
  In (f, s) (alias_scores user_col) <->
  exists config alias,
    In (f, config) (standard_columns self)
    /\ In alias (names config)
    /\ calculate_similarity ratio user_col alias = s.
Proof.
  unfold alias_scores. rewrite in_flat_map. split.
  - intros ([g cfg] & Hg & Hm). apply in_map_iff in Hm.
    destruct Hm as (alias & [= <- <-] & Ha). now exists cfg, alias.
  - intros (cfg & alias & Hc & Ha & <-). exists (f, cfg). split; [exact Hc|].
    apply in_map_iff. now exists alias.
Qed.

Lemma find_best_match_cases (user_col : string) :
  match find_best_match ratio self user_col with
  | (Some std_col, score) =>
      50 <= score
      /\ In (std_col, score) (alias_scores user_col)
      /\ Forall (fun p => snd p <= score) (alias_scores user_col)
  | (None, score) =>
      score = 0 /\ Forall (fun p => snd p < 50) (alias_scores user_col)
  end.
Proof.
  rewrite find_best_match_fold. cbv zeta.
  destruct (keep_best_fold (alias_scores user_col) (None, 0)) as (Hle & Hall & Hor).
  unfold MIN_SIMILARITY_THRESHOLD.
  destruct (fold_left keep_best (alias_scores user_col) (None, 0)) as [bm bs] eqn:E.
  simpl in *.
  destruct (Z.leb_spec 50 bs) as [Hge|Hlt].
  - destruct Hor as [[= -> ->] | (f & -> & Hf)]; [lia|]. now repeat split.
  - split; [reflexivity|].
    eapply Forall_impl; [|exact Hall]. simpl. intros p Hp. lia.
Qed.

(** C6.  [find_best_match] returns either a standard field together with a
    score of at least 50, in which case the field owns an alias whose
    similarity to the user column is that score and no alias of any field
    of the catalog scores higher; or [(None, 0)], in which case every
    alias of every field scores below 50. *)
Theorem find_best_match_highest_alias (user_col : string) :
  match find_best_match ratio self user_col with
  | (Some std_col, score) =>
      50 <= score
      /\ (exists config alias,
            In (std_col, config) (standard_columns self)
            /\ In alias (names config)
            /\ calculate_similarity ratio user_col alias = score)
      /\ (forall f config alias,
            In (f, config) (standard_columns self) ->
            In alias (names config) ->
            calculate_similarity ratio user_col alias <= score)
  | (None, score) =>
      score = 0
      /\ (forall f config alias,
            In (f, config) (standard_columns self) ->
            In alias (names config) ->
            calculate_similarity ratio user_col alias < 50)
  end.
Proof.
  pose proof (find_best_match_cases user_col) as H.
  destruct (find_best_match ratio self user_col) as [[std_col|] score].
  - destruct H as (Hge & Hin & Hall). rewrite Forall_forall in Hall.
    split; [exact Hge|]. split; [now apply In_alias_scores|].
    intros g cfg alias Hg Ha.
    apply (Hall (g, calculate_similarity ratio user_col alias)).
    apply In_alias_scores. now exists cfg, alias.
  - destruct H as (-> & Hall). rewrite Forall_forall in Hall.
    split; [reflexivity|].
    intros g cfg alias Hg Ha.
    apply (Hall (g, calculate_similarity ratio user_col alias)).
    apply In_alias_scores. now exists cfg, alias.
Qed.

End NameMatcherFacts.

(** ** Sorting *)

Section SortingFacts.
Context {A : Type} (key : A -> Q).

(** [x] may stand before [y] in a list sorted by key, highest first. *)
Definition desc (x y : A) : Prop := (key y <= key x)%Q.

Lemma insert_desc_perm (x : A) (l : list A) :
  Permutation (insert_desc key x l) (x :: l).
Proof.
  induction l as [|y l IH]; simpl.
  - apply Permutation_refl.
  - destruct (Qle_bool (key y) (key x)).
    + apply Permutation_refl.
    + eapply Permutation_trans; [apply perm_skip, IH | apply perm_swap].
Qed.

Lemma sorted_desc_perm (l : list A) : Permutation (sorted_desc key l) l.
Proof.
  induction l as [|x l IH]; simpl.
  - apply Permutation_refl.
  - eapply Permutation_trans; [apply insert_desc_perm | now apply perm_skip].
Qed.

Lemma insert_desc_sorted (x : A) (l : list A) :
  StronglySorted desc l -> StronglySorted desc (insert_desc key x l).
Proof.
  induction l as [|y l IH]; simpl; intros Hs.
  - repeat constructor.
  - inversion Hs as [|? ? Hs' Hall]; subst.
    destruct (Qle_bool (key y) (key x)) eqn:E.
    + apply Qle_bool_iff in E. constructor; [exact Hs|].
      constructor; [exact E|].
      eapply Forall_impl; [|exact Hall].
      intros z Hz. unfold desc in *. eapply Qle_trans; eassumption.
    + constructor; [now apply IH|].
      eapply Permutation_Forall; [apply Permutation_sym, insert_desc_perm|].
      constructor; [|exact Hall].
      unfold desc. apply Qlt_le_weak. apply Qnot_le_lt.
      intros Hle. apply Qle_bool_iff in Hle. congruence.
Qed.

Lemma sorted_desc_sorted (l : list A) : StronglySorted desc (sorted_desc key l).
Proof.
  induction l as [|x l IH]; simpl; [constructor | now apply insert_desc_sorted].
Qed.

Lemma sorted_desc_length (l : list A) :
  List.length (sorted_desc key l) = List.length l.
Proof. apply Permutation_length, sorted_desc_perm. Qed.

(** The first element of the sorted list has the greatest key. *)
Lemma sorted_desc_head (l : list A) (best : A) (rest : list A) :
  sorted_desc key l = best :: rest ->
  forall c, In c l -> (key c <= key best)%Q.
Proof.
  intros E c Hc.
  pose proof (sorted_desc_sorted l) as Hs. rewrite E in Hs.
  inversion Hs as [|? ? _ Hall]; subst.
  apply (Permutation_in _ (Permutation_sym (sorted_desc_perm l))) in Hc.
  rewrite E in Hc. destruct Hc as [<-|Hc].
  - apply Qle_refl.
  - rewrite Forall_forall in Hall. now apply Hall.
Qed.
End SortingFacts.

(** ** Loops *)

Lemma fold_left_invariant {A B : Type} (P : B -> Prop) (f : B -> A -> B)
  (l : list A) (acc : B) :
  P acc -> (forall b a, In a l -> P b -> P (f b a)) -> P (fold_left f l acc).
Proof.
  revert acc. induction l as [|x l IH]; intros acc Hacc Hstep; simpl.
  - exact Hacc.
  - apply IH.
    + apply Hstep; [now left | exact Hacc].
    + intros b a Ha. apply Hstep. now right.
Qed.

Lemma foldM_invariant {A B : Type} (P : B -> Prop) (f : B -> A -> result B)
  (l : list A) (acc : B) :
  P acc ->
  (forall b a, In a l -> P b -> exists b', f b a = inr b' /\ P b') ->
  exists r, foldM f l acc = inr r /\ P r.
Proof.
  revert acc. induction l as [|x l IH]; intros acc Hacc Hstep; simpl.
  - now exists acc.
  - destruct (Hstep acc x (or_introl eq_refl) Hacc) as (b' & -> & Hb'). simpl.
    apply IH; [exact Hb'|]. intros b a Ha. apply Hstep. now right.
Qed.

(** ** The name-only resolver *)

(** A user column occurs in an entry as the selected column or among the
    alternatives. *)
Definition occurs_in (user_col : string) (e : mapping_entry) : Prop :=
  user_column e = user_col
  \/ exists alts, alternatives e = Some alts /\ In user_col alts.

Section AutoMapFacts.
Variable ratio : string -> string -> Z.
Variable self : ColumnMapper.

(** Every candidate list is non-empty and holds columns whose best match
    is the field the list is stored under. *)
Definition candidates_ok (candidates : dict (list (string * Z))) : Prop :=
  forall f l,
    In (f, l) candidates ->
    l <> []
    /\ forall u s, In (u, s) l -> find_best_match ratio self u = (Some f, s).

Lemma collect_candidates_ok (df : DataFrame) :
  candidates_ok (collect_candidates ratio self df).
Proof.
  unfold collect_candidates.
  apply fold_left_invariant.
  - intros f l [].
  - intros cands u _ Hok.
    destruct (find_best_match ratio self u) as [[std|] score] eqn:E;
      [|exact Hok].
    destruct (truthy (Some std)); [|exact Hok].
    intros f l Hin. apply dset_In in Hin.
    destruct Hin as [[-> ->]|Hin]; [|now apply Hok].
    split; [now destruct (dget_default cands std [])|].
    intros u' s' Hu'. apply in_app_or in Hu'.
    destruct Hu' as [Hu'|[[= <- <-]|[]]]; [|exact E].
    unfold dget_default in Hu'.
    destruct (dget cands std) as [old|] eqn:Hget; [|destruct Hu'].
    apply dget_In in Hget. now apply (Hok std old).
Qed.

(** What an entry of the result owes to the candidate list of its field. *)
Definition entry_from (l : list (string * Z)) (e : mapping_entry) : Prop :=
  In (user_column e) (map fst l)
  /\ forall alts, alternatives e = Some alts -> incl alts (map fst l).

Lemma resolve_candidates_entries (candidates : dict (list (string * Z))) :
  (forall f l, In (f, l) candidates -> l <> []) ->
  exists m,
    resolve_candidates candidates = inr m
    /\ forall f e, In (f, e) m ->
                   exists l, In (f, l) candidates /\ entry_from l e.
Proof.
  intros Hne. unfold resolve_candidates.
  apply foldM_invariant.
  - intros f e [].
  - intros m [f l] Hin Hm.
    set (sorted_cols := sorted_desc (fun x : string * Z => inject_Z (snd x)) l).
    assert (Hperm : Permutation sorted_cols l) by apply sorted_desc_perm.
    assert (Hstep : forall e, entry_from l e ->
              forall f' e', In (f', e') (dset f e m) ->
                exists l', In (f', l') candidates /\ entry_from l' e').
    { intros e He f' e' Hin'. apply dset_In in Hin'.
      destruct Hin' as [[-> ->]|Hin']; [now exists l | now apply Hm]. }
    assert (Hsorted : exists m',
               match sorted_cols with
               | [] => raise (IndexError "list index out of range")
               | (best_col, best_score) :: rest =>
                   ret (dset f (mk_entry best_col (inject_Z best_score) "fuzzy"
                                         None None (Some (map fst rest))) m)
               end = inr m'
               /\ forall f' e', In (f', e') m' ->
                    exists l', In (f', l') candidates /\ entry_from l' e').
    { destruct sorted_cols as [|[best_col best_score] rest] eqn:Es.
      - apply Permutation_nil in Hperm. now apply Hne in Hin.
      - eexists. split; [reflexivity|]. apply Hstep. split; simpl.
        + apply (Permutation_in (l := map fst ((best_col, best_score) :: rest))).
          * now apply Permutation_map.
          * now left.
        + intros alts [= <-] u Hu.
          apply (Permutation_in (l := map fst ((best_col, best_score) :: rest))).
          * now apply Permutation_map.
          * now right. }
    destruct l as [|[u s] [|p l']].
    + now apply Hne in Hin.
    + eexists. split; [reflexivity|]. apply Hstep. split; simpl.
      * now left.
      * intros alts [=].
    + exact Hsorted.
Qed.

(** C10.  [auto_map_columns] returns a mapping in which a user column
    occurs, as the selected column or as an alternative, under at most one
    standard field: whenever it occurs in the entries of two fields, the
    two fields are the same. *)
Theorem auto_map_columns_one_field_per_column (df : DataFrame) :
  exists mapping,
    auto_map_columns ratio self df = inr mapping
    /\ forall user_col f1 e1 f2 e2,
         dget mapping f1 = Some e1 -> dget mapping f2 = Some e2 ->
         occurs_in user_col e1 -> occurs_in user_col e2 ->
         f1 = f2.
Proof.
  unfold auto_map_columns.
  pose proof (collect_candidates_ok df) as Hok.
  destruct (resolve_candidates_entries (collect_candidates ratio self df))
    as (m & Hm & Hentries).
  { intros f l Hin. now apply (Hok f l). }
  exists m. split; [exact Hm|].
  assert (Hfield : forall u f e,
             dget m f = Some e -> occurs_in u e ->
             exists s, find_best_match ratio self u = (Some f, s)).
  { intros u f e Hget Hocc. apply dget_In in Hget.
    destruct (Hentries f e Hget) as (l & Hl & Hsel & Halts).
    assert (Hu : In u (map fst l)).
    { destruct Hocc as [<-|(alts & Ha & Hu)]; [exact Hsel | now apply (Halts alts)]. }
    apply in_map_iff in Hu. destruct Hu as ([u' s] & <- & Hus).
    exists s. now apply (Hok f l). }
  intros u f1 e1 f2 e2 H1 H2 O1 O2.
  destruct (Hfield u f1 e1 H1 O1) as (s1 & E1).
  destruct (Hfield u f2 e2 H2 O2) as (s2 & E2).
  congruence.
Qed.

End AutoMapFacts.

Lemma bind_inr {A B : Type} (a : A) (k : A -> result B) : bind (inr a) k = k a.
Proof. reflexivity. Qed.

Lemma bind_ret {A B : Type} (a : A) (k : A -> result B) : bind (ret a) k = k a.
Proof. reflexivity. Qed.

(** ** The type scorer *)

(** The rating score of a numeric column: 70 when the range lies in
    [[0, 10]]. *)
Definition rating_score (p : profile) : Z :=
  match numeric_range p with
  | Some (Some min_val, Some max_val, _) =>
      if Qle_bool 0 min_val && Qle_bool max_val 10 then 70 else 0
  | _ => 0
  end.

(** The text score of a mean length. *)
Definition text_tier (avg : Q) : Z :=
  if Qle_bool 50 avg then 80 else if Qle_bool 20 avg then 60 else 30.

Definition mean_length (texts : list string) : Q :=
  (inject_Z (fold_left Z.add (map py_len texts) 0%Z)
   / inject_Z (Z.of_nat (List.length texts)))%Q.

Lemma mean_len_nonempty (texts : list string) :
  texts <> [] -> mean_len texts = inr (mean_length texts).
Proof.
  intros H. unfold mean_len, truediv, mean_length.
  destruct texts as [|t texts]; [contradiction|].
  destruct (Z.eqb_spec (Z.of_nat (List.length (t :: texts))) 0) as [E|_].
  - simpl List.length in E. lia.
  - reflexivity.
Qed.

Section TypeScorerFacts.
Variable to_datetime : list string -> option (list bool).
Variable str_of_float : Q -> string.

(** The id score of a column that is not flagged as an identifier. *)
Definition scaled_id (p : profile) (factor : Z) : Z :=
  py_int (unique_ratio p * inject_Z factor).

Lemma infer_numeric (df : DataFrame) (col_name : string) (p : profile) :
  is_numeric p = true ->
  infer_column_type to_datetime str_of_float df col_name (Some p) =
    inr (if is_date p then
           [ ("date", 0); ("id", if is_id p then 90 else scaled_id p 50);
             ("numeric", 80); ("rating", rating_score p); ("text", 0) ]
         else
           [ ("numeric", 80); ("rating", rating_score p);
             ("id", if is_id p then 90 else scaled_id p 50);
             ("text", 0); ("date", 0) ]).
Proof.
  intros Hn. unfold infer_column_type. simpl bind. rewrite Hn.
  unfold rating_score, scaled_id, RATING_MIN, RATING_MAX, SCORE_MEDIUM,
    SCORE_MEDIUM_HIGH, SCORE_HIGH, SCORE_LOW.
  change (inject_Z 50) with 50%Q.
  set (x := py_int _).
  destruct (is_date p);
    destruct (numeric_range p) as [[[[mn|] [mx|]] mean]|];
    try destruct (Qle_bool _ _ && _); destruct (is_id p); reflexivity.
Qed.

Lemma infer_text_known_length (df : DataFrame) (col_name : string)
  (p : profile) (avg : Q) :
  is_numeric p = false -> avg_length p = Some avg ->
  infer_column_type to_datetime str_of_float df col_name (Some p) =
    inr (if is_date p then
           [ ("date", 0); ("id", if is_id p then 80 else scaled_id p 30);
             ("numeric", 0); ("rating", 0); ("text", text_tier avg) ]
         else
           [ ("numeric", 0); ("rating", 0);
             ("id", if is_id p then 80 else scaled_id p 30);
             ("text", text_tier avg); ("date", 0) ]).
Proof.
  intros Hn Ha. unfold infer_column_type. simpl bind. rewrite Hn, Ha.
  unfold text_tier, scaled_id, TEXT_LENGTH_LONG, TEXT_LENGTH_MEDIUM,
    SCORE_MEDIUM_LOW, SCORE_MEDIUM_HIGH, SCORE_HIGH, SCORE_LOW.
  change (inject_Z 50) with 50%Q. change (inject_Z 20) with 20%Q.
  change (inject_Z 30) with 30%Q.
  set (x := py_int _).
  destruct (is_date p); destruct (is_id p);
    destruct (Qle_bool 50 avg); try destruct (Qle_bool 20 avg); reflexivity.
Qed.

Lemma infer_text_fallback (df : DataFrame) (col_name : string)
  (p : profile) (s : Series) :
  is_numeric p = false -> avg_length p = None ->
  getitem df col_name = inr (SelSeries s) ->
  infer_column_type to_datetime str_of_float df col_name (Some p) =
    inr (match dropna_str str_of_float s with
         | [] =>
             if is_date p then
               [ ("date", 0); ("id", if is_id p then 80 else scaled_id p 30);
                 ("numeric", 0); ("rating", 0); ("text", 0) ]
             else
               [ ("numeric", 0); ("rating", 0);
                 ("id", if is_id p then 80 else scaled_id p 30);
                 ("date", 0) ]
         | texts =>
             if is_date p then
               [ ("date", 0); ("id", if is_id p then 80 else scaled_id p 30);
                 ("numeric", 0); ("rating", 0);
                 ("text", text_tier (mean_length texts)) ]
             else
               [ ("numeric", 0); ("rating", 0);
                 ("id", if is_id p then 80 else scaled_id p 30);
                 ("text", text_tier (mean_length texts)); ("date", 0) ]
         end).
Proof.
  intros Hn Ha Hs. unfold infer_column_type. simpl bind. rewrite Hn, Ha, Hs.
  simpl bind.
  destruct (dropna_str str_of_float s) as [|t texts] eqn:E.
  - unfold scaled_id, SCORE_MEDIUM_HIGH, SCORE_HIGH, SCORE_LOW.
    change (inject_Z 30) with 30%Q. set (x := py_int _).
    destruct (is_date p); destruct (is_id p); reflexivity.
  - rewrite mean_len_nonempty by discriminate.
    replace (0 <? Z.of_nat (List.length (t :: texts))) with true
      by (symmetry; apply Z.ltb_lt; simpl List.length; lia).
    simpl bind.
    unfold text_tier, scaled_id, TEXT_LENGTH_LONG, TEXT_LENGTH_MEDIUM,
      SCORE_MEDIUM_LOW, SCORE_MEDIUM_HIGH, SCORE_HIGH, SCORE_LOW.
    change (inject_Z 50) with 50%Q. change (inject_Z 20) with 20%Q.
    change (inject_Z 30) with 30%Q.
    set (x := py_int _). set (a := mean_length _).
    destruct (is_date p); destruct (is_id p);
      destruct (Qle_bool 50 a); try destruct (Qle_bool 20 a); reflexivity.
Qed.

(** C1.  What the code returns for a date profile (a date column is never
    numeric): the branch for non-numeric columns runs after the date
    branch and overwrites its scores, so the date score is 0, not 90, the
    id score is 80 for an identifier, not 30, and the text score follows
    the length tiers. *)
Theorem infer_column_type_date_overwritten (df : DataFrame)
  (col_name : string) (p : profile) (avg : Q) :
  is_date p = true -> is_numeric p = false -> avg_length p = Some avg ->
  infer_column_type to_datetime str_of_float df col_name (Some p) =
    inr [ ("date", 0); ("id", if is_id p then 80 else scaled_id p 30);
          ("numeric", 0); ("rating", 0); ("text", text_tier avg) ].
Proof.
  intros Hd Hn Ha.
  rewrite (infer_text_known_length df col_name p avg Hn Ha). now rewrite Hd.
Qed.


Lemma truediv_pos (a b : Z) : 0 < b -> truediv a b = inr (inject_Z a / inject_Z b)%Q.
Proof.
  intros H. unfold truediv. destruct (Z.eqb_spec b 0); [lia | reflexivity].
Qed.






Lemma infer_column_type_default (df : DataFrame) (col_name : string)
  (p : profile) :
  analyze_column_data to_datetime str_of_float df col_name = inr p ->
  infer_column_type to_datetime str_of_float df col_name None
  = infer_column_type to_datetime str_of_float df col_name (Some p).
Proof. intros H. unfold infer_column_type. now rewrite H. Qed.

End TypeScorerFacts.

Lemma infer_column_type_date_witness :
  is_date order_dates_profile = true
  /\ is_numeric order_dates_profile = false
  /\ avg_length order_dates_profile = Some 10%Q
  /\ infer_column_type to_datetime_iso str_of_float_int order_dates "OrderDate"
                       (Some order_dates_profile)
     = inr [ ("date", 0); ("id", 80); ("numeric", 0); ("rating", 0);
             ("text", 30) ].
Proof.
  repeat (split; [reflexivity|]).
  exact (infer_column_type_date_overwritten to_datetime_iso str_of_float_int
           order_dates "OrderDate" order_dates_profile 10%Q
           eq_refl eq_refl eq_refl).
Defined.

(** The test [test_type_inference_priority] end to end: the profile of the
    ten dates, and the scores the code gives it. *)
Example order_dates_analysis :
  analyze_column_data to_datetime_iso str_of_float_int order_dates "OrderDate"
  = inr (mk_profile "object" (10 / 10) (0 / 10) true false true None
                    (Some (100 / 10)%Q)).
Proof. reflexivity. Qed.

Example order_dates_scores :
  infer_column_type to_datetime_iso str_of_float_int order_dates "OrderDate" None
  = inr [ ("date", 0); ("id", 80); ("numeric", 0); ("rating", 0); ("text", 30) ].
Proof. reflexivity. Qed.


Example ratings_analysis :
  exists p,
    analyze_column_data to_datetime_iso str_of_float_int ratings "Rating" = inr p
    /\ is_date p = false /\ is_numeric p = true /\ is_id p = false
    /\ (unique_ratio p == 4 # 10)%Q.
Proof. eexists. split; [reflexivity|]. now repeat split. Qed.



Example all_missing_scores :
  infer_column_type to_datetime_iso str_of_float_int all_missing "Price" None
  = inr [ ("numeric", 0); ("rating", 0); ("id", 0); ("date", 0) ].
Proof. reflexivity. Qed.

(** ** Dictionaries built by loops *)

Section DictLoops.
Context {A V : Type}.

(** A loop that stores, under the key of each item, the value [h] gives
    for it, and skips the items for which [h] gives none. *)
Definition store_some (h : string -> A -> option V) (m : dict V)
  (item : string * A) : dict V :=
  match h (fst item) (snd item) with
  | Some e => dset (fst item) e m
  | None => m
  end.

Lemma fold_store_some_other (h : string -> A -> option V)
  (l : list (string * A)) (acc : dict V) (k : string) :
  ~ In k (keys l) ->
  dget (fold_left (store_some h) l acc) k = dget acc k.
Proof.
  revert acc. induction l as [|[k' a'] l IH]; intros acc Hk; simpl.
  - reflexivity.
  - rewrite IH by (intros H; apply Hk; now right).
    unfold store_some. simpl. destruct (h k' a'); [|reflexivity].
    rewrite dget_dset. destruct (String.eqb_spec k' k) as [->|_]; [|reflexivity].
    exfalso. apply Hk. now left.
Qed.

Lemma fold_store_some_get (h : string -> A -> option V)
  (l : list (string * A)) (acc : dict V) (k : string) (a : A) :
  NoDup (keys l) -> In (k, a) l ->
  dget (fold_left (store_some h) l acc) k =
    match h k a with Some e => Some e | None => dget acc k end.
Proof.
  revert acc. induction l as [|[k' a'] l IH]; intros acc Hnd Hin; simpl.
  - destruct Hin.
  - inversion Hnd as [|? ? Hnotin Hnd']; subst.
    destruct Hin as [[= -> ->]|Hin].
    + rewrite fold_store_some_other by exact Hnotin.
      unfold store_some. simpl. destruct (h k a); [|reflexivity].
      now rewrite dget_dset, String.eqb_refl.
    + rewrite (IH _ Hnd' Hin).
      destruct (h k a); [reflexivity|].
      unfold store_some. simpl. destruct (h k' a'); [|reflexivity].
      rewrite dget_dset. destruct (String.eqb_spec k' k) as [->|_]; [|reflexivity].
      exfalso. apply Hnotin. change k with (fst (k, a)). now apply in_map.
Qed.

Lemma fold_store_some_In (h : string -> A -> option V)
  (l : list (string * A)) (acc : dict V) (k : string) (e : V) :
  In (k, e) (fold_left (store_some h) l acc) ->
  In (k, e) acc \/ exists a, In (k, a) l /\ h k a = Some e.
Proof.
  revert acc. induction l as [|[k' a'] l IH]; intros acc Hin; simpl in *.
  - now left.
  - destruct (IH _ Hin) as [Hacc|(a & Ha & He)].
    + unfold store_some in Hacc. simpl in Hacc.
      destruct (h k' a') as [e'|] eqn:E; [|now left].
      apply dset_In in Hacc. destruct Hacc as [[-> ->]|Hacc]; [|now left].
      right. exists a'. split; [now left | exact E].
    + right. exists a. split; [now right | exact He].
Qed.

Lemma keys_dset (d : dict V) (k : string) (v : V) :
  keys (dset k v d) = if dmem k d then keys d else keys d ++ [k].
Proof.
  unfold dmem. induction d as [|[k' v'] d IH]; simpl.
  - reflexivity.
  - destruct (String.eqb_spec k' k) as [->|_]; simpl; [reflexivity|].
    rewrite IH. now destruct (dget d k).
Qed.

Lemma NoDup_keys_dset (d : dict V) (k : string) (v : V) :
  NoDup (keys d) -> NoDup (keys (dset k v d)).
Proof.
  intros Hnd. rewrite keys_dset. destruct (dmem k d) eqn:E; [exact Hnd|].
  apply NoDup_app; [exact Hnd | repeat constructor; intros [] |].
  intros x Hx [<-|[]]. apply dmem_true_iff in Hx. congruence.
Qed.
End DictLoops.

Lemma foldM_ret {A B : Type} (f : B -> A -> result B) (g : B -> A -> B)
  (l : list A) (acc : B) :
  (forall b a, In a l -> f b a = inr (g b a)) ->
  foldM f l acc = inr (fold_left g l acc).
Proof.
  revert acc. induction l as [|x l IH]; intros acc H; simpl.
  - reflexivity.
  - rewrite H by now left. simpl. apply IH. intros b a Ha. apply H. now right.
Qed.

Lemma fold_dset_by_key {V : Type} (g : string -> V) (l : list string)
  (acc : dict V) (k : string) :
  dget acc k = Some (g k) \/ In k l ->
  dget (fold_left (fun d u => dset u (g u) d) l acc) k = Some (g k).
Proof.
  revert acc. induction l as [|u l IH]; intros acc H; simpl.
  - destruct H as [H|[]]. exact H.
  - apply IH. rewrite dget_dset.
    destruct (String.eqb_spec u k) as [->|Hne]; [now left|].
    destruct H as [H|[H|H]]; [now left | contradiction | now right].
Qed.

(** ** The hybrid resolver *)

(** The entry stage 3 stores for a list of candidates, if any. *)
Definition hybrid_entry (user_cols : list candidate) : option mapping_entry :=
  match user_cols with
  | [] => None
  | [(user_col, combined_score, details)] =>
      Some (mk_entry user_col (py_round1 combined_score) "hybrid"
                     (Some (fst details)) (Some (snd details)) None)
  | _ =>
      match sorted_desc (fun x : candidate => snd (fst x)) user_cols with
      | [] => None
      | (best_col, best_score, best_details) :: rest =>
          Some (mk_entry best_col (py_round1 best_score) "hybrid"
                         (Some (fst best_details)) (Some (snd best_details))
                         (Some (map (fun x : candidate => fst (fst x)) rest)))
      end
  end.

Lemma resolve_field_store (std_col : string) (user_cols : list candidate)
  (mapping_result : dict mapping_entry) :
  resolve_field std_col user_cols mapping_result =
    store_some (fun _ => hybrid_entry) mapping_result (std_col, user_cols).
Proof.
  unfold resolve_field, store_some, hybrid_entry. simpl.
  destruct user_cols as [|[[u c] d] [|c2 l]]; try reflexivity.
  now destruct (sorted_desc _ _) as [|[[b bs] bd] rest].
Qed.

(** ** Rounding *)

Lemma round_half_even_near (x : Q) :
  (x - (1 # 2) <= inject_Z (round_half_even x) <= x + (1 # 2))%Q.
Proof.
  unfold round_half_even.
  pose proof (Qfloor_le x) as Hlo. pose proof (Qlt_floor x) as Hhi.
  rewrite inject_Z_plus in Hhi. change (inject_Z 1) with 1%Q in Hhi.
  cbv zeta.
  destruct (Qcompare (x - inject_Z (Qfloor x)) (1 # 2)) eqn:E.
  - apply Qeq_alt in E.
    destruct (Z.even (Qfloor x));
      [|rewrite inject_Z_plus; change (inject_Z 1) with 1%Q]; lra.
  - apply Qlt_alt in E. lra.
  - apply Qgt_alt in E. rewrite inject_Z_plus.
    change (inject_Z 1) with 1%Q. lra.
Qed.




(** ** Conflict resolution *)

Section Resolution.
Context {C : Type} (name : C -> string) (score : C -> Q) (round : Q -> Q).


End Resolution.


Lemma hybrid_entry_selected (cands : list candidate) (e : mapping_entry) :
  hybrid_entry cands = Some e ->
  In (user_column e) (map (fun c : candidate => fst (fst c)) cands).
Proof.
  unfold hybrid_entry.
  destruct cands as [|[[u1 s1] d1] [|c2 l]]; [discriminate | |].
  - intros [= <-]. now left.
  - destruct (sorted_desc _ _) as [|[[b bs] bd] rest] eqn:Es; [discriminate|].
    intros [= <-]. simpl user_column.
    change b with ((fun c : candidate => fst (fst c)) (b, bs, bd)).
    apply in_map.
    apply (Permutation_in _ (sorted_desc_perm (fun x : candidate => snd (fst x)) _)).
    rewrite Es. now left.
Qed.

(** The entry stage 2 of [auto_map_columns] stores for a list of
    candidates; a list with no candidate raises. *)
Definition auto_entry (user_cols : list (string * Z)) : option mapping_entry :=
  match user_cols with
  | [] => None
  | [(user_col, score)] =>
      Some (mk_entry user_col (inject_Z score) "fuzzy" None None None)
  | _ =>
      match sorted_desc (fun x : string * Z => inject_Z (snd x)) user_cols with
      | [] => None
      | (best_col, best_score) :: rest =>
          Some (mk_entry best_col (inject_Z best_score) "fuzzy" None None
                         (Some (map fst rest)))
      end
  end.


Lemma resolve_candidates_eq (candidates : dict (list (string * Z))) :
  (forall f l, In (f, l) candidates -> l <> []) ->
  resolve_candidates candidates
  = inr (fold_left (store_some (fun _ => auto_entry)) candidates []).
Proof.
  intros Hne. unfold resolve_candidates. apply foldM_ret.
  intros m [f l] Hin. unfold store_some, auto_entry. simpl.
  destruct l as [|[u s] [|c2 l]].
  - now apply Hne in Hin.
  - reflexivity.
  - destruct (sorted_desc _ _) as [|[b bs] rest] eqn:Es; [|reflexivity].
    pose proof (sorted_desc_length (fun x : string * Z => inject_Z (snd x))
                                   ((u, s) :: c2 :: l)) as Hl.
    rewrite Es in Hl. discriminate Hl.
Qed.

Section AutoResolution.
Variable ratio : string -> string -> Z.
Variable self : ColumnMapper.
Variable df : DataFrame.

Lemma collect_candidates_NoDup :
  NoDup (keys (collect_candidates ratio self df)).
Proof.
  unfold collect_candidates. apply fold_left_invariant.
  - constructor.
  - intros d u _ Hd.
    destruct (find_best_match ratio self u) as [[std|] score]; [|exact Hd].
    destruct (truthy (Some std)); [|exact Hd].
    now apply NoDup_keys_dset.
Qed.

End AutoResolution.

Section HybridFacts.
Variable ratio : string -> string -> Z.
Variable to_datetime : list string -> option (list bool).
Variable str_of_float : Q -> string.
Variable self : ColumnMapper.
Variable df : DataFrame.
Variables name_weight data_weight : Q.

(** The analysis stage 1 keeps for a column. *)
Definition analysis_of (user_col : string) : option profile * dict Z :=
  match
    (analysis <- analyze_column_data to_datetime str_of_float df user_col ;;
     type_scores <-
       infer_column_type to_datetime str_of_float df user_col (Some analysis) ;;
     ret (analysis, type_scores))
  with
  | inr (analysis, type_scores) => (Some analysis, type_scores)
  | inl _ => (None, [])
  end.

Definition data_score_of (config : column_config) (user_col : string) : Z :=
  dget_default (snd (analysis_of user_col)) (type config) 0.

(** The combined score of a user column for a standard field. *)
Definition combined_of (config : column_config) (user_col : string) : Q :=
  combined name_weight data_weight
           (best_name_score ratio config user_col)
           (data_score_of config user_col).

Definition clears (config : column_config) (user_col : string) : bool :=
  Qle_bool 50 (combined_of config user_col).

Definition candidate_of (config : column_config) (user_col : string)
  : candidate :=
  (user_col, combined_of config user_col,
   (best_name_score ratio config user_col, data_score_of config user_col)).

(** The candidates of a field: the columns of the frame that clear the
    threshold, in the order of the frame. *)
Definition candidates_of (config : column_config) : list candidate :=
  map (candidate_of config) (filter (clears config) (columns df)).

Lemma analyze_columns_get (user_col : string) :
  In user_col (columns df) ->
  dget (analyze_columns to_datetime str_of_float df) user_col
  = Some (analysis_of user_col).
Proof.
  intros Hin. unfold analyze_columns.
  rewrite (fold_left_ext _ (fun d u => dset u (analysis_of u) d)).
  - apply fold_dset_by_key. now right.
  - intros d u. unfold analysis_of.
    now destruct (bind _ _) as [e|[a ts]].
Qed.

Lemma field_candidates_loop (config : column_config) (l : list string)
  (acc : list candidate) :
  incl l (columns df) ->
  foldM
    (fun (acc : list candidate) user_col =>
       let name_score := best_name_score ratio config user_col in
       match dget (analyze_columns to_datetime str_of_float df) user_col with
       | None => raise (KeyError user_col)
       | Some (_, type_scores) =>
           let data_score := dget_default type_scores (type config) 0 in
           let combined_score :=
             combined name_weight data_weight name_score data_score in
           if Qle_bool (inject_Z MIN_SIMILARITY_THRESHOLD) combined_score
           then ret (acc ++ [(user_col, combined_score,
                              (name_score, data_score))])
           else ret acc
       end)
    l acc
  = inr (acc ++ map (candidate_of config) (filter (clears config) l)).
Proof.
  revert acc. induction l as [|u l IH]; intros acc Hincl; simpl.
  - now rewrite app_nil_r.
  - rewrite analyze_columns_get by (apply Hincl; now left).
    assert (Hl : incl l (columns df)) by (intros x Hx; apply Hincl; now right).
    unfold clears at 1, combined_of, data_score_of.
    destruct (analysis_of u) as [a ts] eqn:Ea. simpl snd.
    change (inject_Z MIN_SIMILARITY_THRESHOLD) with 50%Q.
    destruct (Qle_bool 50 _) eqn:Ec; simpl.
    + rewrite (IH _ Hl). rewrite <- app_assoc. simpl.
      unfold candidate_of, combined_of, data_score_of. now rewrite Ea.
    + now rewrite (IH _ Hl).
Qed.

Lemma field_candidates_eq (config : column_config) :
  field_candidates ratio df (analyze_columns to_datetime str_of_float df)
                   name_weight data_weight config
  = inr (candidates_of config).
Proof.
  exact (field_candidates_loop config (columns df) [] (incl_refl _)).
Qed.

(** The candidates dictionary of stage 2. *)
Definition candidates_dict : dict (list candidate) :=
  fold_left (store_some (fun _ config => Some (candidates_of config)))
            (standard_columns self) [].

Lemma hybrid_map_columns_eq (max_columns : Z) :
  hybrid_map_columns ratio to_datetime str_of_float self df
                     name_weight data_weight max_columns
  = inr (fold_left (store_some (fun _ => hybrid_entry)) candidates_dict []).
Proof.
  unfold hybrid_map_columns. cbv zeta.
  rewrite (foldM_ret _ (store_some (fun _ config => Some (candidates_of config)))).
  - rewrite bind_inr. unfold ret. f_equal. apply fold_left_ext.
    intros m [f cands]. apply resolve_field_store.
  - intros d [f cfg] _. now rewrite field_candidates_eq.
Qed.

Lemma candidates_dict_NoDup : NoDup (keys candidates_dict).
Proof.
  unfold candidates_dict. apply fold_left_invariant.
  - constructor.
  - intros d [f cfg] _ Hd. unfold store_some. simpl. now apply NoDup_keys_dset.
Qed.

Lemma candidates_dict_In (f : string) (cands : list candidate) :
  In (f, cands) candidates_dict ->
  exists config, In (f, config) (standard_columns self)
                 /\ cands = candidates_of config.
Proof.
  intros Hin. apply fold_store_some_In in Hin.
  destruct Hin as [[]|(cfg & Hcfg & [= <-])]. now exists cfg.
Qed.

Lemma candidates_dict_get (f : string) (config : column_config) :
  NoDup (keys (standard_columns self)) ->
  In (f, config) (standard_columns self) ->
  dget candidates_dict f = Some (candidates_of config).
Proof.
  intros Hnd Hin. unfold candidates_dict.
  now rewrite (fold_store_some_get _ _ _ f config Hnd Hin).
Qed.

(** The entry of a field is the entry of its candidates. *)
Lemma hybrid_mapping_get (f : string) (config : column_config) :
  NoDup (keys (standard_columns self)) ->
  In (f, config) (standard_columns self) ->
  dget (fold_left (store_some (fun _ => hybrid_entry)) candidates_dict []) f
  = hybrid_entry (candidates_of config).
Proof.
  intros Hnd Hin.
  pose proof (candidates_dict_get f config Hnd Hin) as Hget.
  apply dget_In in Hget.
  rewrite (fold_store_some_get _ _ _ f _ candidates_dict_NoDup Hget).
  now destruct (hybrid_entry _).
Qed.

Lemma hybrid_mapping_In (f : string) (e : mapping_entry) :
  In (f, e) (fold_left (store_some (fun _ => hybrid_entry)) candidates_dict []) ->
  exists config, In (f, config) (standard_columns self)
                 /\ hybrid_entry (candidates_of config) = Some e.
Proof.
  intros Hin. apply fold_store_some_In in Hin.
  destruct Hin as [[]|(cands & Hc & He)].
  apply candidates_dict_In in Hc. destruct Hc as (cfg & Hcfg & ->).
  now exists cfg.
Qed.
Lemma candidates_of_name (config : column_config) (user_col : string) :
  In user_col (map (fun c : candidate => fst (fst c)) (candidates_of config)) ->
  In user_col (columns df) /\ clears config user_col = true.
Proof.
  unfold candidates_of. rewrite map_map. simpl. rewrite map_id.
  apply filter_In.
Qed.

(** C2, amended.  [hybrid_map_columns] returns a mapping; the column
    selected for a standard field is a column of the frame whose combined
    score for that field clears the threshold; and a column that clears
    the threshold for at most one standard field is selected for at most
    one.  Fields are resolved one by one, with no exclusion across
    fields. *)
Theorem hybrid_map_columns_selection (max_columns : Z) :
  exists mapping,
    hybrid_map_columns ratio to_datetime str_of_float self df
                       name_weight data_weight max_columns = inr mapping
    /\ (forall f e,
          dget mapping f = Some e ->
          exists config,
            In (f, config) (standard_columns self)
            /\ In (user_column e) (columns df)
            /\ clears config (user_column e) = true)
    /\ (forall user_col,
          (forall f1 config1 f2 config2,
             In (f1, config1) (standard_columns self) ->
             In (f2, config2) (standard_columns self) ->
             clears config1 user_col = true ->
             clears config2 user_col = true -> f1 = f2) ->
          forall f1 e1 f2 e2,
            dget mapping f1 = Some e1 -> dget mapping f2 = Some e2 ->
            user_column e1 = user_col -> user_column e2 = user_col ->
            f1 = f2).
Proof.
  eexists. split; [apply hybrid_map_columns_eq|].
  assert (Hsel : forall f e,
             dget (fold_left (store_some (fun _ => hybrid_entry))
                             candidates_dict []) f = Some e ->
             exists config,
               In (f, config) (standard_columns self)
               /\ In (user_column e) (columns df)
               /\ clears config (user_column e) = true).
  { intros f e Hget. apply dget_In, hybrid_mapping_In in Hget.
    destruct Hget as (cfg & Hcfg & He). exists cfg. split; [exact Hcfg|].
    apply candidates_of_name. now apply hybrid_entry_selected. }
  split; [exact Hsel|].
  intros u Hone f1 e1 f2 e2 H1 H2 U1 U2.
  destruct (Hsel f1 e1 H1) as (c1 & Hc1 & _ & Hk1).
  destruct (Hsel f2 e2 H2) as (c2 & Hc2 & _ & Hk2).
  rewrite U1 in Hk1. rewrite U2 in Hk2.
  exact (Hone f1 c1 f2 c2 Hc1 Hc2 Hk1 Hk2).
Qed.


End HybridFacts.

Lemma ECOMMERCE_COLUMNS_NoDup : NoDup (keys ECOMMERCE_COLUMNS).
Proof.
  repeat constructor; simpl; intuition discriminate.
Defined.

(** C2 as stated fails on the frame of [test_hybrid_vs_name_only]: the
    column [amount] is selected both for [quantity] and for [unitprice]. *)
Lemma hybrid_map_columns_double_assignment :
  exists mapping e1 e2,
    hybrid_map_columns fuzz_ratio to_datetime_iso str_of_float_int ecommerce
                       hybrid_vs_name_only (6 # 10) (4 # 10) 200 = inr mapping
    /\ dget mapping "quantity" = Some e1
    /\ dget mapping "unitprice" = Some e2
    /\ user_column e1 = "amount"
    /\ user_column e2 = "amount"
    /\ "quantity" <> "unitprice".
Proof.
  do 3 eexists. split; [vm_compute; reflexivity|].
  repeat (split; [reflexivity|]). discriminate.
Qed.



Example duplicate_mapping_auto :
  auto_map_columns fuzz_ratio ecommerce duplicate_mapping
  = inr [ ("customerid", mk_entry "CustomerID" 100 "fuzzy" None None None);
          ("invoicedate", mk_entry "InvoiceDate" 100 "fuzzy" None None None);
          ("quantity", mk_entry "Quantity" 100 "fuzzy" None None None);
          ("unitprice",
           mk_entry "price" 100 "fuzzy" None None (Some ["unit_price"])) ].
Proof. reflexivity. Qed.

Example duplicate_mapping_hybrid_unitprice :
  exists mapping e,
    hybrid_map_columns fuzz_ratio to_datetime_iso str_of_float_int ecommerce
                       duplicate_mapping (6 # 10) (4 # 10) 200 = inr mapping
    /\ dget mapping "unitprice" = Some e
    /\ user_column e = "price"
    /\ alternatives e = Some ["unit_price"; "Quantity"; "CustomerID"].
Proof.
  do 2 eexists. split; [vm_compute; reflexivity|]. now repeat split.
Qed.

(** ** Double assignment under any similarity function *)

(** What the resolver needs of [fuzz.ratio]: equal texts score 100 and no
    pair scores more. *)
Definition ratio_contract (ratio : string -> string -> Z) : Prop :=
  (forall s, ratio s s = 100) /\ (forall a b, ratio a b <= 100).

Lemma fold_max_bound (f : string -> Z) (l : list string) (acc bound : Z) :
  acc <= bound -> (forall a, In a l -> f a <= bound) ->
  fold_left (fun m a => Z.max m (f a)) l acc <= bound.
Proof.
  revert acc. induction l as [|x l IH]; intros acc Hacc H; simpl; [exact Hacc|].
  apply IH.
  - specialize (H x (or_introl eq_refl)). lia.
  - intros a Ha. apply H. now right.
Qed.

Lemma fold_max_reaches (f : string -> Z) (l : list string) (acc : Z) (a : string) :
  In a l -> f a <= fold_left (fun m a => Z.max m (f a)) l acc.
Proof.
  assert (Hmono : forall l acc, acc <= fold_left (fun m a => Z.max m (f a)) l acc).
  { clear. induction l as [|x l IH]; intros acc; simpl; [lia|].
    specialize (IH (Z.max acc (f x))). lia. }
  revert acc. induction l as [|x l IH]; intros acc Hin; [destruct Hin|].
  destruct Hin as [<-|Hin]; simpl.
  - specialize (Hmono l (Z.max acc (f x))). lia.
  - now apply IH.
Qed.

Lemma best_name_score_exact (ratio : string -> string -> Z)
  (config : column_config) (user_col alias : string) :
  ratio_contract ratio ->
  In alias (names config) ->
  normalize_column_name alias = normalize_column_name user_col ->
  best_name_score ratio config user_col = 100.
Proof.
  intros [Hsame Hmax] Hin Hnorm. unfold best_name_score.
  apply Z.le_antisymm.
  - apply fold_max_bound; [lia|]. intros a _. apply Hmax.
  - pose proof (fold_max_reaches (calculate_similarity ratio user_col)
                                 (names config) 0 alias Hin) as H.
    unfold calculate_similarity in H at 1. rewrite Hnorm, Hsame in H. exact H.
Qed.

Lemma hybrid_double_assignment_any_ratio (ratio : string -> string -> Z)
  (to_datetime : list string -> option (list bool)) (str_of_float : Q -> string) :
  ratio_contract ratio ->
  exists mapping e1 e2,
    hybrid_map_columns ratio to_datetime str_of_float ecommerce amount_only
                       (6 # 10) (4 # 10) 200 = inr mapping
    /\ dget mapping "quantity" = Some e1 /\ user_column e1 = "amount"
    /\ dget mapping "unitprice" = Some e2 /\ user_column e2 = "amount".
Proof.
  intros Hc.
  assert (Hentry : forall f config,
             In (f, config) ECOMMERCE_COLUMNS ->
             In "amount" (names config) -> type config = "numeric" ->
             exists e,
               dget (fold_left (store_some (fun _ => hybrid_entry))
                       (candidates_dict ratio to_datetime str_of_float ecommerce
                                        amount_only (6 # 10) (4 # 10)) []) f
               = Some e /\ user_column e = "amount").
  { intros f config Hin Halias Htype.
    rewrite (hybrid_mapping_get ratio to_datetime str_of_float ecommerce
               amount_only (6 # 10) (4 # 10) f config ECOMMERCE_COLUMNS_NoDup Hin).
    unfold candidates_of. change (columns amount_only) with ["amount"].
    cbn [filter].
    assert (Hclears : clears ratio to_datetime str_of_float amount_only
                        (6 # 10) (4 # 10) config "amount" = true).
    { unfold clears, combined_of, data_score_of.
      rewrite (best_name_score_exact ratio config "amount" "amount" Hc Halias eq_refl).
      rewrite Htype. reflexivity. }
    rewrite Hclears. simpl. eexists. split; reflexivity. }
  destruct (Hentry "quantity"
              (mk_config ["quantity"; "qty"; "amount"; "count"; "수량"; "개수"]
                         "numeric" true)) as (e1 & H1 & U1);
    [simpl; tauto | simpl; tauto | reflexivity |].
  destruct (Hentry "unitprice"
              (mk_config ["unitprice"; "unit_price"; "price"; "amount"; "가격";
                          "단가"; "금액"] "numeric" true)) as (e2 & H2 & U2);
    [simpl; tauto | simpl; tauto | reflexivity |].
  eexists. exists e1, e2.
  split; [apply hybrid_map_columns_eq|]. now repeat split.
Qed.

Lemma hybrid_confidence_below_alternative_any_ratio
  (ratio : string -> string -> Z)
  (to_datetime : list string -> option (list bool)) (str_of_float : Q -> string) :
  ratio_contract ratio ->
  exists mapping e config,
    hybrid_map_columns ratio to_datetime str_of_float ecommerce near_tie
                       (999 # 1000) (1 # 1000) 200 = inr mapping
    /\ dget ECOMMERCE_COLUMNS "customerid" = Some config
    /\ candidates_of ratio to_datetime str_of_float near_tie
                     (999 # 1000) (1 # 1000) config
       = [ ("customerid", (100 * (999 # 1000) + 25 * (1 # 1000))%Q, (100, 25));
           ("CustomerID", (100 * (999 # 1000) + 12 * (1 # 1000))%Q, (100, 12)) ]
    /\ dget mapping "customerid" = Some e
    /\ user_column e = "customerid"
    /\ alternatives e = Some ["CustomerID"]
    /\ ~ (100 * (999 # 1000) + 12 * (1 # 1000) <= confidence e)%Q.
Proof.
  intros Hc.
  set (config := mk_config ["customerid"; "customer_id"; "customer"; "cust_id";
                            "user_id"; "userid"; "고객ID"; "고객아이디"; "회원ID"]
                           "id" true).
  assert (Hin : In ("customerid", config) ECOMMERCE_COLUMNS) by (simpl; tauto).
  assert (Hn1 : best_name_score ratio config "customerid" = 100).
  { apply (best_name_score_exact ratio config "customerid" "customerid" Hc);
      [simpl; tauto | reflexivity]. }
  assert (Hn2 : best_name_score ratio config "CustomerID" = 100).
  { apply (best_name_score_exact ratio config "CustomerID" "customerid" Hc);
      [simpl; tauto | reflexivity]. }
  assert (Hcands :
            candidates_of ratio to_datetime str_of_float near_tie
                          (999 # 1000) (1 # 1000) config
            = [ ("customerid", (100 * (999 # 1000) + 25 * (1 # 1000))%Q, (100, 25));
                ("CustomerID", (100 * (999 # 1000) + 12 * (1 # 1000))%Q, (100, 12)) ]).
  { unfold candidates_of.
    change (columns near_tie) with ["customerid"; "CustomerID"].
    assert (Hk1 : clears ratio to_datetime str_of_float near_tie
                    (999 # 1000) (1 # 1000) config "customerid" = true)
      by (unfold clears, combined_of, data_score_of; now rewrite Hn1).
    assert (Hk2 : clears ratio to_datetime str_of_float near_tie
                    (999 # 1000) (1 # 1000) config "CustomerID" = true)
      by (unfold clears, combined_of, data_score_of; now rewrite Hn2).
    cbn [filter]. rewrite Hk1, Hk2. cbn [map].
    unfold candidate_of, combined_of, data_score_of.
    rewrite Hn1, Hn2. reflexivity. }
  eexists. eexists. exists config.
  split; [apply hybrid_map_columns_eq|].
  split; [reflexivity|]. split; [exact Hcands|].
  rewrite (hybrid_mapping_get ratio to_datetime str_of_float ecommerce
             near_tie (999 # 1000) (1 # 1000) "customerid" config
             ECOMMERCE_COLUMNS_NoDup Hin).
  rewrite Hcands.
  split; [reflexivity|]. split; [reflexivity|]. split; [reflexivity|].
  simpl confidence. intros H. vm_compute in H. apply H. reflexivity.
Qed.

(** ** The similarity model meets the contract *)

Lemma common_prefix_bound (a b : list string) :
  (common_prefix a b <= List.length a /\ common_prefix a b <= List.length b)%nat.
Proof.
  revert b. induction a as [|x a IH]; intros [|y b]; simpl; try lia.
  destruct (String.eqb x y); [|lia]. specialize (IH b). lia.
Qed.

(** A block [(i, j, k)] that fits texts of [n] and [m] characters. *)
Definition fits (n m : nat) (blk : nat * nat * nat) : Prop :=
  (fst (fst blk) + snd blk <= n /\ snd (fst blk) + snd blk <= m)%nat.

Lemma scan_second_fits (n m : nat) (a : list string) (i : nat)
  (b : list string) (j : nat) (best : nat * nat * nat) :
  (i + List.length a <= n)%nat -> (j + List.length b <= m)%nat ->
  fits n m best -> fits n m (scan_second a i b j best).
Proof.
  revert j best. induction b as [|y b IH]; intros j best Ha Hb Hbest; simpl.
  - exact Hbest.
  - apply IH; [exact Ha | simpl in Hb; lia |].
    unfold better. destruct (snd best <? common_prefix a (y :: b))%nat; [|exact Hbest].
    pose proof (common_prefix_bound a (y :: b)) as [H1 H2].
    unfold fits. simpl in *. lia.
Qed.

Lemma scan_first_fits (n m : nat) (a : list string) (i : nat)
  (b : list string) (best : nat * nat * nat) :
  (i + List.length a <= n)%nat -> (List.length b <= m)%nat ->
  fits n m best -> fits n m (scan_first a i b best).
Proof.
  revert i best. induction a as [|x a IH]; intros i best Ha Hb Hbest; simpl.
  - exact Hbest.
  - apply IH; [simpl in Ha; lia | exact Hb |].
    apply scan_second_fits; [exact Ha | simpl; lia | exact Hbest].
Qed.

Lemma find_longest_match_fits (a b : list string) :
  fits (List.length a) (List.length b) (find_longest_match a b).
Proof.
  unfold find_longest_match. apply scan_first_fits; try (simpl; lia).
  unfold fits. simpl. lia.
Qed.

Lemma matching_size_bound (fuel : nat) (a b : list string) :
  (matching_size fuel a b <= List.length a
   /\ matching_size fuel a b <= List.length b)%nat.
Proof.
  revert a b. induction fuel as [|fuel IH]; intros a b; simpl; [lia|].
  pose proof (find_longest_match_fits a b) as Hfit.
  destruct (find_longest_match a b) as [[i j] k]. unfold fits in Hfit. simpl in Hfit.
  destruct k as [|k]; [lia|].
  pose proof (IH (firstn i a) (firstn j b)) as [L1 L2].
  pose proof (IH (skipn (i + S k) a) (skipn (j + S k) b)) as [R1 R2].
  rewrite length_firstn in L1, L2. rewrite length_skipn in R1, R2. lia.
Qed.

Lemma fuzz_ratio_contract : ratio_contract fuzz_ratio.
Proof.
  split.
  - intros s. unfold fuzz_ratio. now rewrite String.eqb_refl.
  - intros s1 s2. unfold fuzz_ratio.
    destruct (String.eqb s1 s2); [lia|].
    destruct (chars s1) as [|c1 a] eqn:Ea; [lia|].
    destruct (chars s2) as [|c2 b] eqn:Eb; [lia|].
    set (m := matching_size _ _ _).
    pose proof (matching_size_bound (S (List.length (c1 :: a))) (c1 :: a) (c2 :: b))
      as [Hm1 Hm2]. fold m in Hm1, Hm2.
    set (t := (List.length (c1 :: a) + List.length (c2 :: b))%nat).
    assert (Ht : (0 < t)%nat) by (unfold t; simpl; lia).
    assert (H2m : (2 * m <= t)%nat) by (unfold t; lia).
    set (x := (100 * (inject_Z (2 * Z.of_nat m) / inject_Z (Z.of_nat t)))%Q).
    assert (Hx : (x <= 100)%Q).
    { unfold x.
      assert (Hq : (inject_Z (2 * Z.of_nat m) / inject_Z (Z.of_nat t) <= 1)%Q).
      { apply Qle_shift_div_r.
        - change 0%Q with (inject_Z 0). rewrite <- Zlt_Qlt. lia.
        - rewrite Qmult_1_l. rewrite <- Zle_Qle. lia. }
      lra. }
    pose proof (round_half_even_near x) as [_ Hr].
    assert (Hlt : (inject_Z (round_half_even x) < inject_Z 101)%Q).
    { change (inject_Z 101) with 101%Q. lra. }
    rewrite <- Zlt_Qlt in Hlt. lia.
Qed.

(** ** Applying a mapping *)

Section StoreFacts.
Implicit Types (h : heap) (r : ref) (df : DataFrame).

Lemma deref_store_same h r df :
  (r < List.length h)%nat -> deref (store h r df) r = df.
Proof.
  unfold deref. revert r. induction h as [|x h IH]; intros [|r] H; simpl in *;
    try lia; [reflexivity | apply IH; lia].
Qed.

Lemma deref_store_other h r r' df :
  r <> r' -> deref (store h r df) r' = deref h r'.
Proof.
  unfold deref. revert r r'.
  induction h as [|x h IH]; intros [|r] [|r'] H; simpl; try reflexivity;
    try contradiction.
  apply IH. congruence.
Qed.
End StoreFacts.

(** The selection of one column. *)
Lemma getitem_filter (df : DataFrame) (col_name : string) (s : Series) :
  getitem df col_name = inr (SelSeries s) ->
  filter (fun c => String.eqb (fst c) col_name) (frame_columns df)
  = [(col_name, s)].
Proof.
  unfold getitem.
  destruct (filter _ (frame_columns df)) as [|[l s'] [|c2 rest]] eqn:E;
    try discriminate.
  intros [= ->].
  assert (Hin : In (l, s) (filter (fun c => String.eqb (fst c) col_name)
                                  (frame_columns df)))
    by (rewrite E; now left).
  apply filter_In in Hin. destruct Hin as [_ Hl]. simpl in Hl.
  apply String.eqb_eq in Hl. now subst.
Qed.

(** The source column of every entry of a mapping, when each is the only
    column of the frame with its label. *)
Definition sources (df : DataFrame) (mapping : dict mapping_entry)
  (cols : list (string * Series)) : Prop :=
  Forall2
    (fun (item : string * mapping_entry) (col : string * Series) =>
       fst col = user_column (snd item)
       /\ getitem df (user_column (snd item)) = inr (SelSeries (snd col)))
    mapping cols.

Lemma sources_exist (df : DataFrame) (mapping : dict mapping_entry) :
  (forall f e, In (f, e) mapping -> exists s, getitem df (user_column e) = inr (SelSeries s)) ->
  exists cols, sources df mapping cols.
Proof.
  induction mapping as [|[f e] mapping IH]; intros H.
  - exists []. constructor.
  - destruct (H f e (or_introl eq_refl)) as (s & Hs).
    destruct IH as (cols & Hcols); [intros f' e' Hin; apply (H f' e'); now right|].
    exists ((user_column e, s) :: cols). constructor; [now split | exact Hcols].
Qed.

Lemma build_rename_dict_loop (mapping : dict mapping_entry) (acc : dict string) :
  NoDup (keys acc ++ map (fun item => user_column (snd item)) mapping) ->
  fold_left
    (fun rename_dict (item : string * mapping_entry) =>
       let '(std_col, info) := item in
       let user_col := user_column info in
       dset user_col std_col rename_dict)
    mapping acc
  = acc ++ map (fun item => (user_column (snd item), fst item)) mapping.
Proof.
  revert acc. induction mapping as [|[f e] mapping IH]; intros acc Hnd; simpl.
  - now rewrite app_nil_r.
  - simpl in Hnd.
    assert (Hfresh : ~ In (user_column e) (keys acc)).
    { apply NoDup_remove_2 in Hnd. intros Hin. apply Hnd.
      apply in_or_app. now left. }
    rewrite (dset_fresh _ _ _ Hfresh). rewrite IH.
    + now rewrite <- app_assoc.
    + unfold keys in *. rewrite map_app. simpl. rewrite <- app_assoc. exact Hnd.
Qed.

Lemma build_rename_dict_eq (mapping : dict mapping_entry) :
  NoDup (map (fun item => user_column (snd item)) mapping) ->
  build_rename_dict mapping
  = map (fun item => (user_column (snd item), fst item)) mapping.
Proof.
  intros Hnd. unfold build_rename_dict.
  now rewrite build_rename_dict_loop.
Qed.

Lemma getitem_columns_loop (df : DataFrame) (mapping : dict mapping_entry)
  (cols acc : list (string * Series)) :
  sources df mapping cols ->
  foldM
    (fun acc label =>
       match filter (fun c => String.eqb (fst c) label) (frame_columns df) with
       | [] => raise (KeyError label)
       | found => ret (acc ++ found)
       end)
    (map (fun item => user_column (snd item)) mapping) acc
  = inr (acc ++ cols).
Proof.
  intros H. revert acc. induction H as [|[f e] [l s] mapping cols [Hl Hs] _ IH];
    intros acc; simpl.
  - now rewrite app_nil_r.
  - simpl in Hl, Hs. subst l. rewrite (getitem_filter _ _ _ Hs). simpl.
    rewrite IH. now rewrite <- app_assoc.
Qed.

Lemma rename_sources (df : DataFrame) (mapping : dict mapping_entry)
  (cols : list (string * Series)) :
  NoDup (map (fun item => user_column (snd item)) mapping) ->
  sources df mapping cols ->
  Forall2
    (fun (item : string * mapping_entry) (col : string * Series) =>
       fst col = fst item
       /\ getitem df (user_column (snd item)) = inr (SelSeries (snd col)))
    mapping
    (map (fun c => (dget_default
                      (map (fun item : string * mapping_entry =>
                              (user_column (snd item), fst item)) mapping)
                      (fst c) (fst c), snd c))
         cols).
Proof.
  intros Hnd Hsrc.
  set (rd := map (fun item : string * mapping_entry =>
                    (user_column (snd item), fst item)) mapping).
  assert (Hrd : forall f e, In (f, e) mapping ->
                  dget_default rd (user_column e) (user_column e) = f).
  { intros f e Hin. unfold dget_default.
    rewrite (In_dget rd (user_column e) f); [reflexivity | |].
    - unfold rd, keys. now rewrite map_map.
    - unfold rd. apply in_map_iff. now exists (f, e). }
  clearbody rd. clear Hnd.
  induction Hsrc as [|[f e] [l s] mapping cols [Hl Hs] _ IH]; simpl.
  - constructor.
  - simpl in Hl, Hs. subst l. constructor.
    + split; [apply Hrd; now left | exact Hs].
    + apply IH. intros f' e' Hin. apply Hrd. now right.
Qed.

(** C7, amended.  When the columns selected by the entries of the mapping
    are pairwise distinct and each is the label of one column of the frame,
    [apply_mapping] returns a new frame with as many rows, whose columns
    are, entry by entry, labelled by the standard field and hold the series
    of the selected column; the input frame, and every other frame that
    existed before the call, is left as it was. *)
Theorem apply_mapping_renames_selection (h : heap) (df : ref)
  (mapping : dict mapping_entry) :
  (df < List.length h)%nat ->
  NoDup (map (fun item => user_column (snd item)) mapping) ->
  (forall f e, In (f, e) mapping ->
               exists s, getitem (deref h df) (user_column e) = inr (SelSeries s)) ->
  exists h' df_mapped,
    apply_mapping h df mapping = inr (h', df_mapped)
    /\ df_mapped <> df
    /\ deref h' df = deref h df
    /\ (forall r, (r < List.length h)%nat -> deref h' r = deref h r)
    /\ index_length (deref h' df_mapped) = index_length (deref h df)
    /\ columns (deref h' df_mapped) = keys mapping
    /\ Forall2
         (fun (item : string * mapping_entry) (col : string * Series) =>
            fst col = fst item
            /\ getitem (deref h df) (user_column (snd item))
               = inr (SelSeries (snd col)))
         mapping (frame_columns (deref h' df_mapped)).
Proof.
  intros Hdf Hnd Hocc.
  destruct (sources_exist (deref h df) mapping Hocc) as (cols & Hsrc).
  pose proof (rename_sources (deref h df) mapping cols Hnd Hsrc) as Hren.
  unfold apply_mapping. rewrite (build_rename_dict_eq mapping Hnd).
  unfold getitem_columns, keys. rewrite map_map. simpl fst.
  rewrite (getitem_columns_loop (deref h df) mapping cols [] Hsrc).
  rewrite !bind_inr. simpl app.
  set (selected := mk_frame (index_length (deref h df)) cols).
  set (rd := map (fun item : string * mapping_entry =>
                    (user_column (snd item), fst item)) mapping) in *.
  unfold alloc. cbv zeta. cbn [fst snd].
  set (h1 := h ++ [selected]).
  set (h2 := h1 ++ [deref h1 (List.length h)]).
  assert (Hlen1 : List.length h1 = S (List.length h))
    by (unfold h1; rewrite length_app; simpl; lia).
  assert (Hlen2 : List.length h2 = S (S (List.length h)))
    by (unfold h2; rewrite length_app; simpl; lia).
  assert (Hsel : deref h1 (List.length h) = selected).
  { unfold deref, h1. rewrite app_nth2 by lia. now rewrite Nat.sub_diag. }
  assert (Hcopy : deref h2 (List.length h1) = selected).
  { unfold deref at 1, h2. rewrite app_nth2 by lia.
    rewrite Nat.sub_diag. exact Hsel. }
  do 2 eexists. split; [reflexivity|].
  rewrite deref_store_same by lia. rewrite Hcopy.
  assert (Hold : forall r, (r < List.length h)%nat ->
                  deref (store h2 (List.length h1)
                               (rename_columns rd selected)) r = deref h r).
  { intros r Hr. rewrite deref_store_other by lia.
    unfold deref, h2, h1. rewrite !app_nth1; try reflexivity; try lia.
    rewrite length_app. simpl. lia. }
  split; [lia|]. split; [now apply Hold|].
  split; [exact Hold|]. split; [reflexivity|split].
  - unfold columns, rename_columns. simpl frame_columns.
    clear -Hren. unfold keys.
    induction Hren as [|item [l s] mapping cs [Hl _] _ IH]; simpl; [reflexivity|].
    simpl in Hl. now rewrite Hl, IH.
  - exact Hren.
Qed.

Lemma apply_mapping_duplicate_mapping_witness :
  (0 < List.length [duplicate_mapping])%nat
  /\ NoDup (map (fun item : string * mapping_entry => user_column (snd item))
             duplicate_mapping_result)
  /\ (forall f e, In (f, e) duplicate_mapping_result ->
                  exists s, getitem (deref [duplicate_mapping] 0%nat)
                                    (user_column e) = inr (SelSeries s))
  /\ exists h' df_mapped,
       apply_mapping [duplicate_mapping] 0%nat duplicate_mapping_result
       = inr (h', df_mapped)
       /\ df_mapped <> 0%nat
       /\ deref h' 0%nat = deref [duplicate_mapping] 0%nat
       /\ (forall r, (r < List.length [duplicate_mapping])%nat ->
                     deref h' r = deref [duplicate_mapping] r)
       /\ index_length (deref h' df_mapped)
          = index_length (deref [duplicate_mapping] 0%nat)
       /\ columns (deref h' df_mapped) = keys duplicate_mapping_result
       /\ Forall2
            (fun (item : string * mapping_entry) (col : string * Series) =>
               fst col = fst item
               /\ getitem (deref [duplicate_mapping] 0%nat)
                          (user_column (snd item)) = inr (SelSeries (snd col)))
            duplicate_mapping_result (frame_columns (deref h' df_mapped)).
Proof.
  assert (Hnd : NoDup (map (fun item : string * mapping_entry =>
                              user_column (snd item))
                           duplicate_mapping_result))
    by (repeat constructor; simpl; intuition discriminate).
  assert (Hocc : forall f e, In (f, e) duplicate_mapping_result ->
                   exists s, getitem (deref [duplicate_mapping] 0%nat)
                                     (user_column e) = inr (SelSeries s)).
  { intros f e Hin. simpl in Hin.
    destruct Hin as [H|[H|[H|[H|[]]]]]; injection H as <- <-;
      eexists; reflexivity. }
  split; [simpl; lia|]. split; [exact Hnd|]. split; [exact Hocc|].
  apply (apply_mapping_renames_selection [duplicate_mapping] 0%nat
           duplicate_mapping_result); [simpl; lia | exact Hnd | exact Hocc].
Defined.

(** C7 as stated fails on the mapping [hybrid_map_columns] returns for the
    frame of [test_hybrid_vs_name_only]: every selected column occurs in
    the frame, yet the result has no column [quantity], because [amount] is
    selected twice and is renamed once. *)
Lemma apply_mapping_drops_field :
  (forall f e, In (f, e) hybrid_vs_name_only_result ->
               exists s, getitem hybrid_vs_name_only (user_column e)
                         = inr (SelSeries s))
  /\ exists h' df_mapped,
       apply_mapping [hybrid_vs_name_only] 0%nat hybrid_vs_name_only_result
       = inr (h', df_mapped)
       /\ keys hybrid_vs_name_only_result
          = ["customerid"; "quantity"; "unitprice"]
       /\ columns (deref h' df_mapped) = ["customerid"; "unitprice"]
       /\ In "quantity" (keys hybrid_vs_name_only_result)
       /\ ~ In "quantity" (columns (deref h' df_mapped)).
Proof.
  split.
  - intros f e Hin. simpl in Hin.
    destruct Hin as [H|[H|[H|[]]]]; injection H as <- <-; eexists; reflexivity.
  - do 2 eexists. split; [reflexivity|].
    split; [reflexivity|]. split; [reflexivity|].
    split; [simpl; tauto|]. simpl. intuition discriminate.
Qed.

Example hybrid_vs_name_only_mapping :
  hybrid_map_columns fuzz_ratio to_datetime_iso str_of_float_int ecommerce
                     hybrid_vs_name_only (6 # 10) (4 # 10) 200
  = inr hybrid_vs_name_only_result.
Proof. vm_compute. reflexivity. Qed.

(** * Further properties *)

(** ** Normalized names *)




Lemma lower_ascii_separator (c : ascii) :
  (Ascii.eqb (lower_ascii c) " " = Ascii.eqb c " ")
  /\ (Ascii.eqb (lower_ascii c) "_" = Ascii.eqb c "_")
  /\ (Ascii.eqb (lower_ascii c) "-" = Ascii.eqb c "-").
Proof.
  destruct c as [[] [] [] [] [] [] [] []]; repeat split; reflexivity.
Qed.










Section NameMatcherMore.
Variable ratio : string -> string -> Z.
Variable self : ColumnMapper.



(** The first pair of the loop order that reaches the final score. *)
Lemma keep_best_first (l : list (string * Z)) (st : option string * Z) :
  let st' := fold_left (keep_best) l st in
  (st' = st /\ Forall (fun p => snd p <= snd st) l)
  \/ exists f l1 l2,
       l = l1 ++ (f, snd st') :: l2
       /\ fst st' = Some f
       /\ snd st < snd st'
       /\ Forall (fun p => snd p < snd st') l1
       /\ Forall (fun p => snd p <= snd st') l2.
Proof.
  revert st. induction l as [|[g s] l IH]; intros st; simpl.
  - left. split; [reflexivity | constructor].
  - assert (Hk : (snd st < s /\ keep_best st (g, s) = (Some g, s))
                 \/ (s <= snd st /\ keep_best st (g, s) = st)).
    { unfold keep_best. simpl. destruct (Z.ltb_spec (snd st) s); [left|right]; now split. }
    specialize (IH (keep_best st (g, s))). cbv zeta in IH.
    destruct Hk as [[Hlt Hk]|[Hge Hk]]; rewrite Hk in *.
    + destruct IH as [[Heq Hall]|(f & l1 & l2 & Hl & Hf & Hs & H1 & H2)].
      * right. exists g, [], l. rewrite Heq. simpl in *.
        split; [reflexivity|]. split; [reflexivity|]. split; [exact Hlt|].
        split; [constructor | exact Hall].
      * right. exists f, ((g, s) :: l1), l2. simpl in Hs.
        repeat split; try assumption.
        -- simpl. f_equal. exact Hl.
        -- lia.
        -- constructor; [simpl; exact Hs | exact H1].
    + destruct IH as [[Heq Hall]|(f & l1 & l2 & Hl & Hf & Hs & H1 & H2)].
      * left. split; [exact Heq|]. constructor; [simpl; lia | exact Hall].
      * right. exists f, ((g, s) :: l1), l2.
        repeat split; try assumption.
        -- simpl. f_equal. exact Hl.
        -- constructor; [simpl; lia | exact H1].
Qed.

(** X3.  When [find_best_match] returns a field, it is the owner of the
    first alias, in the order of the catalog and of its alias lists, that
    reaches the returned score: every alias before it scores strictly less,
    every alias after it scores at most as much.  A tie goes to the field
    listed first. *)
Theorem find_best_match_first_on_tie (user_col std_col : string) (score : Z) :
  find_best_match ratio self user_col = (Some std_col, score) ->
  exists before after,
    alias_scores ratio self user_col = before ++ (std_col, score) :: after
    /\ Forall (fun p => snd p < score) before
    /\ Forall (fun p => snd p <= score) after.
Proof.
  rewrite find_best_match_fold. cbv zeta.
  pose proof (keep_best_first (alias_scores ratio self user_col) (None, 0)) as H.
  cbv zeta in H.
  destruct (fold_left keep_best (alias_scores ratio self user_col) (None, 0))
    as [bm bs] eqn:E. simpl in *.
  destruct (MIN_SIMILARITY_THRESHOLD <=? bs); [|discriminate].
  intros [= -> ->].
  destruct H as [[[=] _]|(f & l1 & l2 & Hl & [= <-] & _ & H1 & H2)].
  now exists l1, l2.
Qed.

(** X4.  When the similarity function scores equal texts 100 and nothing
    higher, a user column whose normalized name is the normalized form of
    an alias of the catalog is matched with the score 100, to a field that
    owns such an alias. *)
Theorem find_best_match_exact_alias (user_col f alias : string)
  (config : column_config) :
  ratio_contract ratio ->
  In (f, config) (standard_columns self) ->
  In alias (names config) ->
  normalize_column_name alias = normalize_column_name user_col ->
  exists std_col config' alias',
    find_best_match ratio self user_col = (Some std_col, 100)
    /\ In (std_col, config') (standard_columns self)
    /\ In alias' (names config')
    /\ calculate_similarity ratio user_col alias' = 100.
Proof.
  intros [Hsame Hmax] Hin Ha Hnorm.
  assert (H100 : In (f, 100) (alias_scores ratio self user_col)).
  { apply In_alias_scores. exists config, alias. repeat split; try assumption.
    unfold calculate_similarity. now rewrite Hnorm, Hsame. }
  pose proof (find_best_match_cases ratio self user_col) as Hc.
  destruct (find_best_match ratio self user_col) as [[std_col|] score].
  - destruct Hc as (_ & Hown & Hall).
    rewrite Forall_forall in Hall. specialize (Hall _ H100). simpl in Hall.
    apply In_alias_scores in Hown. destruct Hown as (cfg' & alias' & Hc' & Ha' & Hs').
    assert (score <= 100) by (rewrite <- Hs'; apply Hmax).
    assert (Hscore : score = 100) by lia.
    exists std_col, cfg', alias'. rewrite <- Hscore.
    repeat split; assumption.
  - destruct Hc as (_ & Hall).
    rewrite Forall_forall in Hall. specialize (Hall _ H100). simpl in Hall. lia.
Qed.
End NameMatcherMore.

(** ** Missing columns *)

Lemma dmem_dset {V : Type} (d : dict V) (k k' : string) (v : V) :
  dmem k' (dset k v d) = String.eqb k k' || dmem k' d.
Proof.
  unfold dmem. rewrite dget_dset. now destruct (String.eqb k k').
Qed.

(** X5.  Adding an entry for a standard field to a mapping removes that
    field from the missing required columns and leaves the others, in the
    same order. *)
Theorem get_missing_columns_after_mapping (self : ColumnMapper)
  (mapping : dict mapping_entry) (std_col : string) (e : mapping_entry) :
  get_missing_columns self (dset std_col e mapping)
  = filter (fun f => negb (String.eqb std_col f))
           (get_missing_columns self mapping).
Proof.
  rewrite !get_missing_columns_filter.
  assert (Hitem : forall item,
             is_missing (dset std_col e mapping) item
             = is_missing mapping item && negb (String.eqb std_col (fst item))).
  { intros [f cfg]. unfold is_missing. simpl. rewrite dmem_dset.
    destruct (required cfg), (String.eqb std_col f), (dmem f mapping);
      reflexivity. }
  induction (standard_columns self) as [|[f cfg] l IH]; simpl; [reflexivity|].
  rewrite Hitem. simpl fst.
  destruct (is_missing mapping (f, cfg)); simpl; [|exact IH].
  destruct (String.eqb std_col f); simpl; [exact IH | now rewrite IH].
Qed.

(** ** The name-only resolver, entry by entry *)

Section AutoMapMore.
Variable ratio : string -> string -> Z.
Variable self : ColumnMapper.
Variable df : DataFrame.

(** The columns of the frame whose best match is [f], each with its score,
    in the order of the frame. *)
Definition matched_to (f : string) (cols : list string) : list (string * Z) :=
  flat_map
    (fun user_col =>
       match find_best_match ratio self user_col with
       | (Some std, score) =>
           if truthy (Some std) && String.eqb std f then [(user_col, score)]
           else []
       | (None, _) => []
       end)
    cols.

Lemma collect_candidates_loop (cols : list string)
  (acc : dict (list (string * Z))) (f : string) :
  dget_default
    (fold_left
       (fun candidates user_col =>
          let '(std_col, score) := find_best_match ratio self user_col in
          match std_col with
          | Some std =>
              if truthy std_col then
                dset std (dget_default candidates std [] ++ [(user_col, score)])
                     candidates
              else candidates
          | None => candidates
          end)
       cols acc) f []
  = dget_default acc f [] ++ matched_to f cols.
Proof.
  revert acc. induction cols as [|u cols IH]; intros acc; simpl.
  - now rewrite app_nil_r.
  - rewrite IH. clear IH.
    destruct (find_best_match ratio self u) as [[std|] score]; simpl;
      [|reflexivity].
    destruct (negb (String.eqb std "")); simpl.
    + unfold dget_default at 1. rewrite dget_dset.
      destruct (String.eqb_spec std f) as [->|Hne].
      * now rewrite <- app_assoc.
      * reflexivity.
    + reflexivity.
Qed.

Lemma collect_candidates_get (f : string) :
  dget_default (collect_candidates ratio self df) f [] = matched_to f (columns df).
Proof. unfold collect_candidates. now rewrite collect_candidates_loop. Qed.

Lemma collect_candidates_lookup (f : string) :
  dget (collect_candidates ratio self df) f
  = match matched_to f (columns df) with
    | [] => None
    | l => Some l
    end.
Proof.
  pose proof (collect_candidates_get f) as H. unfold dget_default in H.
  destruct (dget (collect_candidates ratio self df) f) as [l|] eqn:E.
  - rewrite <- H. apply dget_In in E.
    destruct (collect_candidates_ok ratio self df f l E) as [Hne _].
    now destruct l.
  - now rewrite <- H.
Qed.

Lemma auto_map_columns_get (f : string) :
  exists mapping,
    auto_map_columns ratio self df = inr mapping
    /\ dget mapping f = auto_entry (matched_to f (columns df)).
Proof.
  eexists. split.
  - unfold auto_map_columns. apply resolve_candidates_eq.
    intros g l Hin. now apply (collect_candidates_ok ratio self df g l).
  - pose proof (collect_candidates_lookup f) as Hl.
    destruct (matched_to f (columns df)) as [|c l] eqn:E.
    + rewrite fold_store_some_other; [reflexivity|].
      now apply dget_None_notin.
    + apply dget_In in Hl.
      rewrite (fold_store_some_get _ _ _ f _
                 (collect_candidates_NoDup ratio self df) Hl).
      now destruct (auto_entry (c :: l)).
Qed.

Lemma In_matched_to (f u : string) (s : Z) (cols : list string) :
  In (u, s) (matched_to f cols) <->
  In u cols /\ find_best_match ratio self u = (Some f, s) /\ f <> "".
Proof.
  unfold matched_to. rewrite in_flat_map. split.
  - intros (u' & Hu' & Hin).
    destruct (find_best_match ratio self u') as [[std|] score] eqn:E;
      [|destruct Hin].
    simpl in Hin. destruct (String.eqb_spec std "") as [->|Hne]; simpl in Hin;
      [destruct Hin|].
    destruct (String.eqb_spec std f) as [->|_]; [|destruct Hin].
    destruct Hin as [[= <- <-]|[]]. now repeat split.
  - intros (Hu & E & Hne). exists u. split; [exact Hu|]. rewrite E. simpl.
    destruct (String.eqb_spec f "") as [->|_]; [contradiction|]. simpl.
    rewrite String.eqb_refl. now left.
Qed.

Lemma auto_entry_sound (l : list (string * Z)) (e : mapping_entry) :
  auto_entry l = Some e ->
  method e = "fuzzy" /\ name_score e = None /\ data_score e = None
  /\ (exists s, In (user_column e, s) l /\ confidence e = inject_Z s
                /\ forall c, In c l -> snd c <= s)
  /\ (alternatives e = None <-> List.length l = 1%nat)
  /\ forall u, In u (map fst l) -> occurs_in u e.
Proof.
  unfold auto_entry.
  destruct l as [|[u1 s1] [|c2 l]]; [discriminate | |].
  - intros [= <-]. simpl. repeat split; try reflexivity.
    + exists s1. repeat split; [now left|]. intros c [<-|[]]. simpl. lia.
    + intros u [<-|[]]. now left.
  - set (full := (u1, s1) :: c2 :: l).
    destruct (sorted_desc _ full) as [|[b bs] rest] eqn:Es; [discriminate|].
    intros [= <-].
    cbn [method name_score data_score alternatives user_column confidence].
    pose proof (sorted_desc_perm (fun x : string * Z => inject_Z (snd x)) full) as Hp.
    rewrite Es in Hp.
    repeat split; try reflexivity; try discriminate.
    + exists bs. split; [|split; [reflexivity|]].
      * apply (Permutation_in _ Hp). now left.
      * intros c Hc.
        pose proof (sorted_desc_head (fun x : string * Z => inject_Z (snd x))
                                     full (b, bs) rest Es c Hc) as Hle.
        simpl in Hle. rewrite Zle_Qle. exact Hle.
    + intros u Hu. apply in_map_iff in Hu. destruct Hu as ([u' s'] & <- & Hin).
      apply (Permutation_in _ (Permutation_sym Hp)) in Hin.
      destruct Hin as [[= <- <-]|Hin]; [now left|].
      right. eexists. split; [reflexivity|]. simpl.
      change u' with (fst (u', s')). now apply in_map.
Qed.

(** X6.  Every entry [auto_map_columns] returns is backed by the frame: the
    selected column is a column of the frame whose best match is the
    entry's field, the confidence is that match's score, which is at least
    50 and the highest among the columns matched to the field, the method
    is ['fuzzy'], the field is a field of the catalog, and alternatives are
    listed exactly when more than one column is matched to the field. *)
Theorem auto_map_columns_entries_sound :
  exists mapping,
    auto_map_columns ratio self df = inr mapping
    /\ forall f e,
         dget mapping f = Some e ->
         In f (keys (standard_columns self))
         /\ In (user_column e) (columns df)
         /\ method e = "fuzzy"
         /\ (exists score,
               find_best_match ratio self (user_column e) = (Some f, score)
               /\ confidence e = inject_Z score /\ 50 <= score
               /\ forall u s, In u (columns df) ->
                              find_best_match ratio self u = (Some f, s) ->
                              f <> "" -> s <= score)
         /\ (alternatives e = None <->
             List.length (matched_to f (columns df)) = 1%nat).
Proof.
  destruct (auto_map_columns_get "") as (mapping & Hm & _).
  exists mapping. split; [exact Hm|].
  intros f e Hget.
  destruct (auto_map_columns_get f) as (mapping' & Hm' & Hf).
  rewrite Hm in Hm'. injection Hm' as <-. rewrite Hget in Hf. symmetry in Hf.
  destruct (auto_entry_sound _ e Hf) as (Hmeth & _ & _ & (s & Hin & Hconf & Hmax) & Halt & _).
  apply In_matched_to in Hin. destruct Hin as (Hcol & Hbest & Hne).
  pose proof (find_best_match_cases ratio self (user_column e)) as Hc.
  rewrite Hbest in Hc. destruct Hc as (Hge & Hown & _).
  apply In_alias_scores in Hown. destruct Hown as (cfg & _ & Hcfg & _).
  split; [change f with (fst (f, cfg)); now apply in_map|].
  split; [exact Hcol|]. split; [exact Hmeth|].
  split; [|exact Halt].
  exists s. repeat split; try assumption.
  intros u s' Hu Hs' Hnef.
  apply (Hmax (u, s')). now apply In_matched_to.
Qed.

(** X7.  No matched column is dropped and no unmatched column is mapped: a
    column of the frame whose best match is a field occurs in the entry of
    that field, as the selected column or among the alternatives; a column
    with no match above the threshold occurs in no entry. *)
Theorem auto_map_columns_complete :
  exists mapping,
    auto_map_columns ratio self df = inr mapping
    /\ forall user_col,
         In user_col (columns df) ->
         match find_best_match ratio self user_col with
         | (Some f, _) =>
             f <> "" -> exists e, dget mapping f = Some e /\ occurs_in user_col e
         | (None, _) =>
             forall f e, dget mapping f = Some e -> ~ occurs_in user_col e
         end.
Proof.
  destruct (auto_map_columns_get "") as (mapping & Hm & _).
  exists mapping. split; [exact Hm|].
  assert (Hget : forall f, dget mapping f = auto_entry (matched_to f (columns df))).
  { intros f. destruct (auto_map_columns_get f) as (mapping' & Hm' & Hf).
    rewrite Hm in Hm'. now injection Hm' as <-. }
  intros u Hu.
  destruct (find_best_match ratio self u) as [[f|] s] eqn:E.
  - intros Hne.
    assert (Hin : In (u, s) (matched_to f (columns df)))
      by now apply In_matched_to.
    rewrite Hget.
    destruct (auto_entry (matched_to f (columns df))) as [e|] eqn:Ee.
    + exists e. split; [reflexivity|].
      destruct (auto_entry_sound _ e Ee) as (_ & _ & _ & _ & _ & Hocc).
      apply Hocc. change u with (fst (u, s)). now apply in_map.
    + unfold auto_entry in Ee.
      destruct (matched_to f (columns df)) as [|[u1 s1] [|c2 l]] eqn:El;
        [destruct Hin | discriminate |].
      destruct (sorted_desc _ _) as [|[b bs] rest] eqn:Es; [|discriminate].
      pose proof (sorted_desc_length (fun x : string * Z => inject_Z (snd x))
                                     ((u1, s1) :: c2 :: l)) as Hl.
      rewrite Es in Hl. discriminate Hl.
  - intros f e Hf Hocc. rewrite Hget in Hf.
    destruct (auto_entry_sound _ e Hf) as (_ & _ & _ & (s0 & Hsel & _) & _ & _).
    assert (Hu' : In u (map fst (matched_to f (columns df)))).
    { destruct Hocc as [<-|(alts & Ha & Hin)].
      - change (user_column e) with (fst (user_column e, s0)). now apply in_map.
      - unfold auto_entry in Hf.
        destruct (matched_to f (columns df)) as [|[u1 s1] [|c2 l]];
          [discriminate | injection Hf as <-; discriminate |].
        destruct (sorted_desc _ _) as [|[b bs] rest] eqn:Es; [discriminate|].
        injection Hf as <-. simpl in Ha. injection Ha as <-.
        apply in_map_iff in Hin. destruct Hin as (c & <- & Hc).
        apply in_map.
        apply (Permutation_in _ (sorted_desc_perm
                 (fun x : string * Z => inject_Z (snd x)) _)).
        rewrite Es. now right. }
    apply in_map_iff in Hu'. destruct Hu' as ([u' s'] & <- & Hin).
    apply In_matched_to in Hin. destruct Hin as (_ & E' & _). simpl in E.
    congruence.
Qed.

(** X8.  Validation of the name-only mapping succeeds exactly when every
    required field of the catalog is the best match of some column of the
    frame. *)
Theorem validate_auto_map_columns :
  exists mapping,
    auto_map_columns ratio self df = inr mapping
    /\ (fst (validate_mapping self mapping) = true <->
        forall f config,
          In (f, config) (standard_columns self) -> required config = true ->
          exists user_col score,
            In user_col (columns df)
            /\ find_best_match ratio self user_col = (Some f, score)
            /\ f <> "").
Proof.
  destruct (auto_map_columns_get "") as (mapping & Hm & _).
  exists mapping. split; [exact Hm|].
  assert (Hmem : forall f, dmem f mapping = true <->
                   exists u s, In u (columns df)
                               /\ find_best_match ratio self u = (Some f, s)
                               /\ f <> "").
  { intros f. destruct (auto_map_columns_get f) as (mapping' & Hm' & Hf).
    rewrite Hm in Hm'. injection Hm' as <-. unfold dmem. rewrite Hf. split.
    - destruct (auto_entry (matched_to f (columns df))) as [e|] eqn:Ee;
        [|discriminate].
      intros _.
      destruct (auto_entry_sound _ e Ee) as (_ & _ & _ & (s & Hin & _) & _ & _).
      apply In_matched_to in Hin. now exists (user_column e), s.
    - intros (u & s & Hin).
      apply (proj2 (In_matched_to f u s (columns df))) in Hin.
      unfold auto_entry.
      destruct (matched_to f (columns df)) as [|[u1 s1] [|c2 l]];
        [destruct Hin | reflexivity |].
      destruct (sorted_desc _ _) as [|[b bs] rest] eqn:Es; [|reflexivity].
      pose proof (sorted_desc_length (fun x : string * Z => inject_Z (snd x))
                                     ((u1, s1) :: c2 :: l)) as Hl.
      rewrite Es in Hl. discriminate Hl. }
  unfold validate_mapping. rewrite get_missing_columns_filter.
  split.
  - intros Hvalid f cfg Hin Hreq. apply Hmem.
    destruct (dmem f mapping) eqn:Ed; [reflexivity|].
    assert (Hf : In (f, cfg) (filter (is_missing mapping) (standard_columns self))).
    { apply filter_In. split; [exact Hin|]. unfold is_missing. simpl.
      now rewrite Hreq, Ed. }
    destruct (filter (is_missing mapping) (standard_columns self));
      [destruct Hf | discriminate Hvalid].
  - intros Hall.
    rewrite filter_none; [reflexivity|].
    intros [f cfg] Hin. unfold is_missing. simpl.
    destruct (required cfg) eqn:Hreq; [|reflexivity].
    now rewrite (proj2 (Hmem f) (Hall f cfg Hin Hreq)).
Qed.
End AutoMapMore.

(** ** Ties *)

(** The head of the sorted list is the first element of the list with the
    greatest key: the sort is stable. *)
Lemma sorted_desc_first {A : Type} (key : A -> Q) (l : list A) (best : A)
  (rest : list A) :
  sorted_desc key l = best :: rest ->
  exists l1 l2,
    l = l1 ++ best :: l2
    /\ Forall (fun c => (key c < key best)%Q) l1
    /\ Forall (fun c => (key c <= key best)%Q) l2.
Proof.
  revert best rest. induction l as [|x l IH]; intros best rest; simpl.
  - discriminate.
  - destruct (sorted_desc key l) as [|y r] eqn:Es; simpl.
    + intros [= <- <-].
      pose proof (sorted_desc_length key l) as Hl. rewrite Es in Hl.
      destruct l; [|discriminate Hl].
      exists [], []. repeat split; constructor.
    + destruct (Qle_bool (key y) (key x)) eqn:E.
      * intros [= <- <-]. apply Qle_bool_iff in E.
        exists [], l. repeat split; [constructor|].
        apply Forall_forall. intros c Hc.
        pose proof (sorted_desc_head key l y r Es c Hc) as Hle.
        eapply Qle_trans; eassumption.
      * intros [= <- <-].
        destruct (IH y r eq_refl) as (l1 & l2 & Hl & H1 & H2).
        exists (x :: l1), l2. repeat split; [simpl; now f_equal | | exact H2].
        constructor; [|exact H1].
        apply Qnot_le_lt. intros Hle. apply Qle_bool_iff in Hle. congruence.
Qed.

(** ** Rounding to one decimal keeps a bound given in tenths *)

Lemma tenths_le_scaled (z : Z) (x : Q) :
  (inject_Z z / 10 <= x)%Q <-> (inject_Z z <= x * 10)%Q.
Proof.
  split; intros H.
  - assert (E : (inject_Z z == (inject_Z z / 10) * 10)%Q) by field.
    rewrite E. apply Qmult_le_compat_r; [exact H | discriminate].
  - apply Qle_shift_div_r; [reflexivity | exact H].
Qed.

Lemma scaled_le_tenths (z : Z) (x : Q) :
  (x <= inject_Z z / 10)%Q <-> (x * 10 <= inject_Z z)%Q.
Proof.
  split; intros H.
  - assert (E : (inject_Z z == (inject_Z z / 10) * 10)%Q) by field.
    rewrite E. apply Qmult_le_compat_r; [exact H | discriminate].
  - apply Qle_shift_div_l; [reflexivity | exact H].
Qed.

Lemma py_round1_ge (z : Z) (x : Q) :
  (inject_Z z / 10 <= x)%Q -> (inject_Z z / 10 <= py_round1 x)%Q.
Proof.
  intros H. unfold py_round1.
  pose proof (round_half_even_near (x * 10)) as [Hlo _].
  apply tenths_le_scaled in H.
  assert (Hz : z <= round_half_even (x * 10)).
  { assert (Hlt : (inject_Z z < inject_Z (round_half_even (x * 10) + 1))%Q).
    { rewrite inject_Z_plus. change (inject_Z 1) with 1%Q. lra. }
    rewrite <- Zlt_Qlt in Hlt. lia. }
  apply Qle_shift_div_l; [reflexivity|].
  assert (E : (inject_Z z / 10 * 10 == inject_Z z)%Q) by field.
  rewrite E. now rewrite <- Zle_Qle.
Qed.

Lemma py_round1_le (z : Z) (x : Q) :
  (x <= inject_Z z / 10)%Q -> (py_round1 x <= inject_Z z / 10)%Q.
Proof.
  intros H. unfold py_round1.
  pose proof (round_half_even_near (x * 10)) as [_ Hhi].
  apply scaled_le_tenths in H.
  assert (Hz : round_half_even (x * 10) <= z).
  { assert (Hlt : (inject_Z (round_half_even (x * 10)) < inject_Z (z + 1))%Q).
    { rewrite inject_Z_plus. change (inject_Z 1) with 1%Q. lra. }
    rewrite <- Zlt_Qlt in Hlt. lia. }
  apply Qle_shift_div_r; [reflexivity|].
  assert (E : (inject_Z z / 10 * 10 == inject_Z z)%Q) by field.
  rewrite E. now rewrite <- Zle_Qle.
Qed.

(** ** The hybrid resolver, entry by entry *)

Lemma hybrid_entry_sound (cands : list candidate) (e : mapping_entry) :
  hybrid_entry cands = Some e ->
  method e = "hybrid"
  /\ (alternatives e = None <-> List.length cands = 1%nat)
  /\ exists l1 best l2,
       cands = l1 ++ best :: l2
       /\ user_column e = fst (fst best)
       /\ confidence e = py_round1 (snd (fst best))
       /\ name_score e = Some (fst (snd best))
       /\ data_score e = Some (snd (snd best))
       /\ Forall (fun c : candidate => (snd (fst c) < snd (fst best))%Q) l1
       /\ Forall (fun c : candidate => (snd (fst c) <= snd (fst best))%Q) l2.
Proof.
  unfold hybrid_entry.
  destruct cands as [|[[u1 s1] d1] [|c2 l]]; [discriminate | |].
  - intros [= <-]. cbn. split; [reflexivity|]. split; [tauto|].
    exists [], (u1, s1, d1), []. repeat split; constructor.
  - cbv beta iota. set (full := @cons candidate (u1, s1, d1) (c2 :: l)).
    destruct (sorted_desc (fun x : candidate => snd (fst x)) full)
      as [|[[b bs] bd] rest] eqn:Es; [discriminate|].
    intros [= <-].
    cbn [method name_score data_score alternatives user_column confidence].
    split; [reflexivity|]. split; [split; [discriminate | simpl; lia]|].
    destruct (sorted_desc_first _ full _ rest Es) as (l1 & l2 & Hl & H1 & H2).
    simpl in H1, H2.
    exists l1, (b, bs, bd), l2. now repeat split.
Qed.

Lemma filter_eq_app_cons {A : Type} (p : A -> bool) (l m1 : list A) (x : A)
  (m2 : list A) :
  filter p l = m1 ++ x :: m2 ->
  exists l1 l2,
    l = l1 ++ x :: l2 /\ filter p l1 = m1 /\ filter p l2 = m2 /\ p x = true.
Proof.
  revert m1. induction l as [|a l IH]; intros m1; simpl.
  - destruct m1; discriminate.
  - destruct (p a) eqn:Ea.
    + destruct m1 as [|b m1]; simpl.
      * intros [= -> Hl]. exists [], l. simpl. now repeat split.
      * intros [= -> Hl]. destruct (IH m1 Hl) as (l1 & l2 & -> & H1 & H2 & Hx).
        exists (b :: l1), l2. simpl. rewrite Ea, H1. now repeat split.
    + intros Hl. destruct (IH m1 Hl) as (l1 & l2 & -> & H1 & H2 & Hx).
      exists (a :: l1), l2. simpl. rewrite Ea. now repeat split.
Qed.

Section HybridMore.
Variable ratio : string -> string -> Z.
Variable to_datetime : list string -> option (list bool).
Variable str_of_float : Q -> string.
Variable self : ColumnMapper.
Variable df : DataFrame.
Variables name_weight data_weight : Q.


(** The entry of a field, read against the columns of the frame. *)
Lemma hybrid_entry_columns (config : column_config) (e : mapping_entry) :
  hybrid_entry
    (candidates_of ratio to_datetime str_of_float df name_weight data_weight
                   config) = Some e ->
  method e = "hybrid"
  /\ name_score e = Some (best_name_score ratio config (user_column e))
  /\ data_score e
     = Some (data_score_of to_datetime str_of_float df config (user_column e))
  /\ confidence e
     = py_round1 (combined_of ratio to_datetime str_of_float df
                              name_weight data_weight config (user_column e))
  /\ clears ratio to_datetime str_of_float df name_weight data_weight
            config (user_column e) = true
  /\ exists before after,
       columns df = before ++ user_column e :: after
       /\ Forall
            (fun u =>
               (combined_of ratio to_datetime str_of_float df
                            name_weight data_weight config u
                < combined_of ratio to_datetime str_of_float df
                              name_weight data_weight config (user_column e))%Q)
            before
       /\ Forall
            (fun u =>
               (combined_of ratio to_datetime str_of_float df
                            name_weight data_weight config u
                <= combined_of ratio to_datetime str_of_float df
                               name_weight data_weight config (user_column e))%Q)
            after.
Proof.
  intros He. apply hybrid_entry_sound in He.
  destruct He as (Hm & _ & c1 & best & c2 & Hc & Hu & Hconf & Hns & Hds & H1 & H2).
  unfold candidates_of in Hc.
  apply map_eq_app in Hc. destruct Hc as (a & b' & Hf & Ha & Hb).
  apply map_eq_cons in Hb. destruct Hb as (x & b & -> & Hx & Hb).
  apply filter_eq_app_cons in Hf.
  destruct Hf as (l1 & l2 & Hcols & Hl1 & Hl2 & Hclr).
  subst best. simpl in Hu, Hconf, Hns, Hds, H1, H2. rewrite Hu.
  repeat (split; [assumption|]).
  exists l1, l2. split; [exact Hcols|].
  assert (H50 : (50 <= combined_of ratio to_datetime str_of_float df
                                  name_weight data_weight config x)%Q)
    by (now apply Qle_bool_iff).
  assert (Hbelow : forall u,
             clears ratio to_datetime str_of_float df name_weight data_weight
                    config u = false ->
             (combined_of ratio to_datetime str_of_float df
                          name_weight data_weight config u < 50)%Q).
  { intros u Hf. apply Qnot_le_lt. intros Hle.
    apply Qle_bool_iff in Hle. unfold clears in Hf. congruence. }
  split; apply Forall_forall; intros u Hin.
  - destruct (clears ratio to_datetime str_of_float df name_weight data_weight
                     config u) eqn:E.
    + assert (Hc1 : In (candidate_of ratio to_datetime str_of_float df
                                     name_weight data_weight config u) c1).
      { rewrite <- Ha. apply in_map. rewrite <- Hl1. apply filter_In. now split. }
      rewrite Forall_forall in H1. exact (H1 _ Hc1).
    + eapply Qlt_le_trans; [apply Hbelow; exact E | exact H50].
  - destruct (clears ratio to_datetime str_of_float df name_weight data_weight
                     config u) eqn:E.
    + assert (Hc2 : In (candidate_of ratio to_datetime str_of_float df
                                     name_weight data_weight config u) c2).
      { rewrite <- Hb. apply in_map. rewrite <- Hl2. apply filter_In. now split. }
      rewrite Forall_forall in H2. exact (H2 _ Hc2).
    + apply Qlt_le_weak.
      eapply Qlt_le_trans; [apply Hbelow; exact E | exact H50].
Qed.



End HybridMore.

(** ** The profile of a column *)

(** The number of rows of a column. *)
Definition series_length (s : Series) : nat :=
  match s with
  | NumericSeries _ data => List.length data
  | ObjectSeries data => List.length data
  end.

(** A ratio guarded against an empty frame. *)
Definition ratio_of (a total : Z) : Q :=
  if 0 <? total then (inject_Z a / inject_Z total)%Q else 0%Q.

Lemma guarded_ratio_eq (a total : Z) :
  (if 0 <? total then truediv a total else ret 0%Q) = inr (ratio_of a total).
Proof.
  unfold ratio_of. destruct (Z.ltb_spec 0 total) as [H|H].
  - now rewrite truediv_pos.
  - reflexivity.
Qed.

Lemma distinct_length {A : Type} (eqb : A -> A -> bool) (l : list A) :
  (List.length (distinct eqb l) <= List.length l)%nat.
Proof.
  induction l as [|a l IH]; simpl; [lia|].
  pose proof (filter_length_le (fun y => negb (eqb a y)) (distinct eqb l)). lia.
Qed.

Lemma count_na_dropna {A : Type} (l : list (option A)) :
  0 <= count_na l
  /\ count_na l + Z.of_nat (List.length (dropna l)) = Z.of_nat (List.length l).
Proof.
  induction l as [|[x|] l [IH0 IH]]; cbn [count_na dropna List.length];
    rewrite ?Nat2Z.inj_succ; lia.
Qed.

Lemma nunique_isna_sum (s : Series) :
  0 <= nunique s /\ 0 <= isna_sum s
  /\ nunique s + isna_sum s <= Z.of_nat (series_length s).
Proof.
  destruct s as [dt data|data]; simpl.
  - pose proof (count_na_dropna data) as [H0 H].
    pose proof (distinct_length Qeq_bool (dropna data)). lia.
  - pose proof (count_na_dropna data) as [H0 H].
    pose proof (distinct_length String.eqb (dropna data)). lia.
Qed.

Lemma ratio_of_nonneg (a total : Z) : 0 <= a -> (0 <= ratio_of a total)%Q.
Proof.
  intros Ha. unfold ratio_of. destruct (Z.ltb_spec 0 total) as [H|H].
  - apply Qle_shift_div_l.
    + change 0%Q with (inject_Z 0). now rewrite <- Zlt_Qlt.
    + rewrite Qmult_0_l. change 0%Q with (inject_Z 0). now rewrite <- Zle_Qle.
  - apply Qle_refl.
Qed.

Lemma ratio_of_sum (a b total : Z) :
  a + b <= total -> (ratio_of a total + ratio_of b total <= 1)%Q.
Proof.
  intros Hab. unfold ratio_of. destruct (Z.ltb_spec 0 total) as [H|H].
  - assert (Ht : (0 < inject_Z total)%Q)
      by (change 0%Q with (inject_Z 0); now rewrite <- Zlt_Qlt).
    assert (E : (inject_Z a / inject_Z total + inject_Z b / inject_Z total
                 == inject_Z (a + b) / inject_Z total)%Q).
    { rewrite inject_Z_plus. field. intros E. rewrite E in Ht.
      exact (Qlt_irrefl _ Ht). }
    rewrite E. apply Qle_shift_div_r; [exact Ht|].
    rewrite Qmult_1_l. now rewrite <- Zle_Qle.
  - discriminate.
Qed.

Section ProfilerMore.
Variable to_datetime : list string -> option (list bool).
Variable str_of_float : Q -> string.

(** The values the date test and the mean length look at. *)
Definition sample_of (s : Series) : list string :=
  firstn 10 (dropna_str str_of_float s).

Definition date_flag (sample : list string) : bool :=
  match sample with
  | [] => false
  | _ =>
      match to_datetime sample with
      | Some parsed =>
          Qle_bool DATE_PARSE_RATIO_THRESHOLD
                   (inject_Z (count_true parsed)
                    / inject_Z (Z.of_nat (List.length sample)))
      | None => false
      end
  end.

Lemma analyze_column_data_series (df : DataFrame) (col_name : string)
  (p : profile) :
  analyze_column_data to_datetime str_of_float df col_name = inr p ->
  exists s, getitem df col_name = inr (SelSeries s).
Proof.
  unfold analyze_column_data.
  destruct (getitem df col_name) as [e|[s|cols]]; simpl; try discriminate.
  intros _. now exists s.
Qed.

Ltac profile_fields u :=
  unfold set_is_id, set_is_date, set_avg_length;
  cbn [dtype unique_ratio missing_ratio is_date is_numeric is_id
       numeric_range avg_length];
  let E := fresh "E" in
  destruct (Qle_bool ID_UNIQUE_RATIO_THRESHOLD u) eqn:E;
  cbn [dtype unique_ratio missing_ratio is_date is_numeric is_id
       numeric_range avg_length];
  rewrite ?E; repeat split; try (reflexivity || assumption).

(** The profile, field by field. *)
Lemma analyze_column_data_profile (df : DataFrame) (col_name : string)
  (s : Series) :
  getitem df col_name = inr (SelSeries s) ->
  exists p,
    analyze_column_data to_datetime str_of_float df col_name = inr p
    /\ dtype p = series_dtype s
    /\ unique_ratio p = ratio_of (nunique s) (len_df df)
    /\ missing_ratio p = ratio_of (isna_sum s) (len_df df)
    /\ is_numeric p = is_numeric_dtype s
    /\ is_id p = Qle_bool ID_UNIQUE_RATIO_THRESHOLD (unique_ratio p)
    /\ numeric_range p
       = (if is_numeric_dtype s && negb (isna_all s)
          then Some (series_min s, series_max s, series_mean s) else None)
    /\ is_date p = negb (is_numeric_dtype s) && date_flag (sample_of s)
    /\ avg_length p
       = (if is_numeric_dtype s then None
          else match sample_of s with
               | [] => None
               | sample => Some (mean_length sample)
               end).
Proof.
  intros Hs. unfold analyze_column_data. rewrite Hs, bind_inr. cbv zeta.
  cbn [series_attr]. rewrite bind_ret.
  rewrite !guarded_ratio_eq, !bind_inr.
  remember (ratio_of (nunique s) (len_df df)) as u eqn:Eu.
  remember (ratio_of (isna_sum s) (len_df df)) as m eqn:Em.
  destruct s as [dt data|data]; cbn [is_numeric_dtype].
  - destruct (isna_all (NumericSeries dt data)); cbn [negb andb];
      unfold set_numeric_range, set_is_numeric; cbn [is_numeric negb];
      rewrite bind_inr; (eexists; split; [reflexivity|]); profile_fields u.
  - cbn [is_numeric negb andb]. fold (sample_of (ObjectSeries data)).
    set (sample := sample_of (ObjectSeries data)). unfold date_flag.
    destruct sample as [|t sample'] eqn:Esample.
    + simpl. eexists. split; [reflexivity|]. profile_fields u.
    + rewrite <- Esample.
      assert (Hn : 0 < Z.of_nat (List.length sample))
        by (rewrite Esample; simpl List.length; lia).
      assert (Hne : sample <> []) by (rewrite Esample; discriminate).
      replace (0 <? Z.of_nat (List.length sample)) with true
        by (symmetry; now apply Z.ltb_lt).
      rewrite (mean_len_nonempty sample Hne).
      destruct (to_datetime sample) as [parsed|].
      * rewrite truediv_pos by exact Hn. unfold ret. rewrite ?bind_inr.
        eexists. split; [reflexivity|].
        destruct (Qle_bool DATE_PARSE_RATIO_THRESHOLD _);
          profile_fields u; now rewrite Esample.
      * unfold ret. rewrite ?bind_inr.
        eexists. split; [reflexivity|].
        profile_fields u; now rewrite Esample.
Qed.

(** X12.  Invariants of every profile [analyze_column_data] returns: a
    numeric column is never a date and has no mean length; a column that
    is not numeric has no numeric range; a date column has a mean length;
    the identifier flag is set exactly from a unique ratio of 0.9; and
    neither ratio is negative. *)
Theorem analyze_column_data_flags (df : DataFrame) (col_name : string)
  (p : profile) :
  analyze_column_data to_datetime str_of_float df col_name = inr p ->
  (is_numeric p = true -> is_date p = false /\ avg_length p = None)
  /\ (is_numeric p = false -> numeric_range p = None)
  /\ (is_date p = true -> exists avg, avg_length p = Some avg)
  /\ (is_id p = true <-> (9 # 10 <= unique_ratio p)%Q)
  /\ (0 <= unique_ratio p)%Q /\ (0 <= missing_ratio p)%Q.
Proof.
  intros Hp. destruct (analyze_column_data_series df col_name p Hp) as (s & Hs).
  destruct (analyze_column_data_profile df col_name s Hs)
    as (p' & Hp' & _ & Hu & Hm & Hn & Hid & Hr & Hd & Ha).
  rewrite Hp in Hp'. injection Hp' as <-.
  pose proof (nunique_isna_sum s) as (Hn0 & Hi0 & _).
  split; [|split; [|split; [|split; [|split]]]].
  - intros H. rewrite Hn in H. rewrite Hd, Ha, H. now split.
  - intros H. rewrite Hn in H. now rewrite Hr, H.
  - rewrite Hd, Ha. destruct (is_numeric_dtype s); [discriminate|].
    unfold date_flag. destruct (sample_of s); [discriminate|].
    intros _. now eexists.
  - rewrite Hid. apply Qle_bool_iff.
  - rewrite Hu. now apply ratio_of_nonneg.
  - rewrite Hm. now apply ratio_of_nonneg.
Qed.

(** X13.  When the column has as many rows as the frame, the unique ratio
    and the missing ratio of its profile add up to at most 1; and the
    profile of a column of a frame with no rows has both ratios 0, the
    division being skipped. *)
Theorem analyze_column_data_ratios (df : DataFrame) (col_name : string)
  (s : Series) (p : profile) :
  getitem df col_name = inr (SelSeries s) ->
  series_length s = index_length df ->
  analyze_column_data to_datetime str_of_float df col_name = inr p ->
  (unique_ratio p + missing_ratio p <= 1)%Q
  /\ (unique_ratio p <= 1)%Q /\ (missing_ratio p <= 1)%Q
  /\ (index_length df = 0%nat ->
      unique_ratio p = 0%Q /\ missing_ratio p = 0%Q /\ is_id p = false).
Proof.
  intros Hs Hlen Hp.
  destruct (analyze_column_data_profile df col_name s Hs)
    as (p' & Hp' & _ & Hu & Hm & _ & Hid & _).
  rewrite Hp in Hp'. injection Hp' as <-.
  pose proof (nunique_isna_sum s) as (Hn0 & Hi0 & Hsum).
  rewrite Hlen in Hsum. fold (len_df df) in Hsum.
  pose proof (ratio_of_sum _ _ _ Hsum) as H1.
  pose proof (ratio_of_nonneg (nunique s) (len_df df) Hn0) as H2.
  pose proof (ratio_of_nonneg (isna_sum s) (len_df df) Hi0) as H3.
  rewrite <- Hu, <- Hm in *.
  split; [exact H1|]. split; [lra|]. split; [lra|].
  intros H0. rewrite Hid, Hu, Hm. unfold ratio_of, len_df. rewrite H0.
  now repeat split.
Qed.

(** X14.  The date test and the mean length look at the first ten
    non-null values only: two text columns that agree on them get the same
    [is_date] and the same [avg_length], whatever follows. *)
Theorem analyze_column_data_sample (df1 df2 : DataFrame) (c1 c2 : string)
  (d1 d2 : list (option string)) (p1 p2 : profile) :
  getitem df1 c1 = inr (SelSeries (ObjectSeries d1)) ->
  getitem df2 c2 = inr (SelSeries (ObjectSeries d2)) ->
  firstn 10 (dropna d1) = firstn 10 (dropna d2) ->
  analyze_column_data to_datetime str_of_float df1 c1 = inr p1 ->
  analyze_column_data to_datetime str_of_float df2 c2 = inr p2 ->
  is_date p1 = is_date p2 /\ avg_length p1 = avg_length p2.
Proof.
  intros H1 H2 Hsample Hp1 Hp2.
  destruct (analyze_column_data_profile df1 c1 _ H1)
    as (p' & Hp' & _ & _ & _ & _ & _ & _ & Hd1 & Ha1).
  rewrite Hp1 in Hp'. injection Hp' as <-.
  destruct (analyze_column_data_profile df2 c2 _ H2)
    as (p' & Hp' & _ & _ & _ & _ & _ & _ & Hd2 & Ha2).
  rewrite Hp2 in Hp'. injection Hp' as <-.
  rewrite Hd1, Hd2, Ha1, Ha2. unfold sample_of. simpl dropna_str.
  now rewrite Hsample.
Qed.

(** X15.  What the profiler raises: [KeyError] for a name that is no
    column of the frame, and [AttributeError] for a label that several
    columns carry, the selection then being a frame, which has no
    [dtype]; [infer_column_type] left to compute the profile raises the
    same. *)
Theorem analyze_column_data_errors (df : DataFrame) (col_name : string) :
  (~ In col_name (columns df) ->
   analyze_column_data to_datetime str_of_float df col_name
   = inl (KeyError col_name)
   /\ infer_column_type to_datetime str_of_float df col_name None
      = inl (KeyError col_name))
  /\ ((2 <= List.length
              (filter (fun c => String.eqb (fst c) col_name)
                      (frame_columns df)))%nat ->
      analyze_column_data to_datetime str_of_float df col_name
      = inl (AttributeError "'DataFrame' object has no attribute 'dtype'")
      /\ infer_column_type to_datetime str_of_float df col_name None
         = inl (AttributeError "'DataFrame' object has no attribute 'dtype'")).
Proof.
  split.
  - intros Hnot.
    assert (Hg : getitem df col_name = inl (KeyError col_name)).
    { unfold getitem. rewrite filter_none; [reflexivity|].
      intros [l s] Hin. simpl. destruct (String.eqb_spec l col_name) as [->|_];
        [|reflexivity].
      exfalso. apply Hnot. unfold columns.
      change col_name with (fst (col_name, s)). now apply in_map. }
    assert (Ha : analyze_column_data to_datetime str_of_float df col_name
                 = inl (KeyError col_name))
      by (unfold analyze_column_data; now rewrite Hg).
    split; [exact Ha|]. unfold infer_column_type. now rewrite Ha.
  - intros Hlen.
    assert (Hg : exists cols, getitem df col_name = inr (SelFrame cols)).
    { unfold getitem.
      destruct (filter _ (frame_columns df)) as [|c [|c' l]];
        simpl in Hlen; try lia.
      destruct c. now eexists. }
    destruct Hg as (cols & Hg).
    assert (Ha : analyze_column_data to_datetime str_of_float df col_name
                 = inl (AttributeError
                          "'DataFrame' object has no attribute 'dtype'"))
      by (unfold analyze_column_data; now rewrite Hg).
    split; [exact Ha|]. unfold infer_column_type. now rewrite Ha.
Qed.
End ProfilerMore.

(** ** The range of the type scores *)

Definition type_tags : list string := ["date"; "id"; "numeric"; "rating"; "text"].

Definition scores_ok (scores : dict Z) : Prop :=
  Forall (fun kv => In (fst kv) type_tags /\ 0 <= snd kv <= 90) scores.

Lemma py_int_range (x : Q) (n : Z) :
  (0 <= x)%Q -> (x <= inject_Z n)%Q -> 0 <= py_int x <= n.
Proof.
  intros H0 Hn. unfold py_int. destruct x as [a b].
  unfold Qle in *. simpl in *.
  assert (Ha : 0 <= a) by lia.
  rewrite Z.quot_div_nonneg by lia. split.
  - apply Z.div_pos; lia.
  - apply Z.div_le_upper_bound; lia.
Qed.

Lemma scaled_id_range (p : profile) (factor : Z) :
  0 <= factor -> (0 <= unique_ratio p)%Q -> (unique_ratio p <= 1)%Q ->
  0 <= scaled_id p factor <= factor.
Proof.
  intros Hf H0 H1. unfold scaled_id. apply py_int_range.
  - apply Qmult_le_0_compat; [exact H0|].
    change 0%Q with (inject_Z 0). now rewrite <- Zle_Qle.
  - assert (Hq : (0 <= inject_Z factor)%Q)
      by (change 0%Q with (inject_Z 0); now rewrite <- Zle_Qle).
    setoid_replace (inject_Z factor) with (1 * inject_Z factor)%Q at 2
      by (now rewrite Qmult_1_l).
    now apply Qmult_le_compat_r.
Qed.

Lemma rating_score_range (p : profile) : 0 <= rating_score p <= 90.
Proof.
  unfold rating_score.
  destruct (numeric_range p) as [[[[mn|] [mx|]] mean]|]; try lia.
  destruct (_ && _); lia.
Qed.

Lemma text_tier_range (avg : Q) : 0 <= text_tier avg <= 90.
Proof.
  unfold text_tier. destruct (Qle_bool 50 avg); [lia|].
  destruct (Qle_bool 20 avg); lia.
Qed.

Ltac scores_tac :=
  unfold scores_ok;
  repeat (apply Forall_cons; [split; [simpl; tauto | simpl snd]|]);
  try apply Forall_nil;
  try first [lia | apply rating_score_range | apply text_tier_range].

Section ScorerMore.
Variable to_datetime : list string -> option (list bool).
Variable str_of_float : Q -> string.

(** The scores of a profile the profiler returned. *)
Lemma infer_of_profile (df : DataFrame) (col_name : string) (p : profile) :
  analyze_column_data to_datetime str_of_float df col_name = inr p ->
  exists scores,
    infer_column_type to_datetime str_of_float df col_name (Some p) = inr scores
    /\ scores_ok scores
    /\ (dget scores "text" = None <->
        is_numeric p = false /\ avg_length p = None).
Proof.
  intros Hp.
  destruct (analyze_column_data_series to_datetime str_of_float df col_name p Hp)
    as (s & Hs).
  destruct (analyze_column_data_profile to_datetime str_of_float df col_name s Hs)
    as (p' & Hp' & _ & Hu & _ & Hn & Hid & _ & Hd & Ha).
  rewrite Hp in Hp'. injection Hp' as <-.
  pose proof (nunique_isna_sum s) as (Hn0 & _ & _).
  assert (H0 : (0 <= unique_ratio p)%Q)
    by (rewrite Hu; now apply ratio_of_nonneg).
  assert (Hsc : forall factor, 0 <= factor <= 90 -> is_id p = false ->
                  0 <= scaled_id p factor <= 90).
  { intros factor Hf Hfalse.
    assert (H1 : (unique_ratio p <= 1)%Q).
    { rewrite Hid in Hfalse.
      assert (Hlt : (unique_ratio p < 9 # 10)%Q).
      { apply Qnot_le_lt. intros Hle. apply Qle_bool_iff in Hle.
        unfold ID_UNIQUE_RATIO_THRESHOLD in Hfalse. congruence. }
      lra. }
    pose proof (scaled_id_range p factor (proj1 Hf) H0 H1). lia. }
  destruct (is_numeric p) eqn:En.
  - rewrite (infer_numeric to_datetime str_of_float df col_name p En).
    eexists. split; [reflexivity|].
    destruct (is_date p); destruct (is_id p) eqn:Ei;
      (split; [scores_tac; try (apply Hsc; [lia | reflexivity])
              | simpl; split; [discriminate | intros [? _]; discriminate]]).
  - destruct (avg_length p) as [avg|] eqn:Eavg.
    + rewrite (infer_text_known_length to_datetime str_of_float df col_name
                 p avg En Eavg).
      eexists. split; [reflexivity|].
      destruct (is_date p); destruct (is_id p) eqn:Ei;
        (split; [scores_tac; try (apply Hsc; [lia | reflexivity])
                | simpl; split; [discriminate | intros [_ ?]; discriminate]]).
    + rewrite (infer_text_fallback to_datetime str_of_float df col_name
                 p s En Eavg Hs).
      rewrite <- Hn in Ha. simpl in Ha.
      assert (Hempty : dropna_str str_of_float s = []).
      { unfold sample_of in Ha.
        destruct (dropna_str str_of_float s) as [|t l]; [reflexivity|].
        simpl in Ha. discriminate Ha. }
      assert (Hdate : is_date p = false).
      { rewrite Hd. unfold sample_of. rewrite Hempty. simpl.
        now destruct (is_numeric_dtype s). }
      rewrite Hempty, Hdate.
      eexists. split; [reflexivity|].
      destruct (is_id p) eqn:Ei;
        (split; [scores_tac; try (apply Hsc; [lia | reflexivity])
                | simpl; split; [now split | reflexivity]]).
Qed.

(** Whatever the profile, the last assignment of either branch sets the
    date score to 0. *)
Lemma infer_date_zero (df : DataFrame) (col_name : string)
  (analysis : option profile) (scores : dict Z) :
  infer_column_type to_datetime str_of_float df col_name analysis = inr scores ->
  dget scores "date" = Some 0.
Proof.
  unfold infer_column_type.
  destruct (match analysis with
            | Some a => ret a
            | None => analyze_column_data to_datetime str_of_float df col_name
            end) as [e|p]; [discriminate|].
  rewrite bind_inr. cbv zeta.
  destruct (is_numeric p).
  - intros [= <-]. rewrite dget_dset. reflexivity.
  - match goal with
    | |- bind ?m _ = _ -> _ => destruct m as [e|sc]
    end; [discriminate|].
    rewrite bind_inr. intros [= <-]. rewrite dget_dset. reflexivity.
Qed.

(** X16.  The scores of a column end to end: for every profile the
    profiler returns, [infer_column_type] returns scores, the same whether
    it is handed the profile or computes it; every key is one of the five
    type tags and every score lies between 0 and 90; and the text score is
    left out exactly for a non-numeric column with no non-null value. *)
Theorem infer_column_type_scores_in_range (df : DataFrame)
  (col_name : string) (p : profile) :
  analyze_column_data to_datetime str_of_float df col_name = inr p ->
  exists scores,
    infer_column_type to_datetime str_of_float df col_name (Some p) = inr scores
    /\ infer_column_type to_datetime str_of_float df col_name None = inr scores
    /\ (forall k v, In (k, v) scores -> In k type_tags /\ 0 <= v <= 90)
    /\ (dget scores "text" = None <->
        is_numeric p = false /\ avg_length p = None).
Proof.
  intros Hp. destruct (infer_of_profile df col_name p Hp) as (scores & Hs & Hok & Ht).
  exists scores. split; [exact Hs|]. split.
  - now rewrite (infer_column_type_default to_datetime str_of_float df col_name p Hp).
  - split; [|exact Ht]. intros k v Hin.
    unfold scores_ok in Hok. rewrite Forall_forall in Hok.
    exact (Hok (k, v) Hin).
Qed.

(** X17.  [infer_column_type] never reports a date: whenever it returns,
    for a profile handed in or computed, with or without [is_date], the
    score under [date] is 0. *)
Theorem infer_column_type_never_scores_date (df : DataFrame)
  (col_name : string) (analysis : option profile) (scores : dict Z) :
  infer_column_type to_datetime str_of_float df col_name analysis = inr scores ->
  dget scores "date" = Some 0
  /\ dget_default scores "date" 0 = 0.
Proof.
  intros H. pose proof (infer_date_zero df col_name analysis scores H) as Hd.
  split; [exact Hd|]. unfold dget_default. now rewrite Hd.
Qed.
End ScorerMore.

(** ** The scores the hybrid resolver combines *)

Lemma best_name_score_range (ratio : string -> string -> Z)
  (config : column_config) (user_col : string) :
  ratio_contract ratio -> 0 <= best_name_score ratio config user_col <= 100.
Proof.
  intros [_ Hmax]. unfold best_name_score. split.
  - assert (Hmono : forall l acc,
               acc <= fold_left
                        (fun name_score alias =>
                           Z.max name_score
                                 (calculate_similarity ratio user_col alias))
                        l acc).
    { induction l as [|x l IH]; intros acc; simpl; [lia|].
      specialize (IH (Z.max acc (calculate_similarity ratio user_col x))). lia. }
    apply Hmono.
  - apply fold_max_bound; [lia|]. intros a _. apply Hmax.
Qed.

Section HybridScores.
Variable ratio : string -> string -> Z.
Variable to_datetime : list string -> option (list bool).
Variable str_of_float : Q -> string.
Variable self : ColumnMapper.
Variable df : DataFrame.
Variables name_weight data_weight : Q.

Lemma data_score_of_range (config : column_config) (user_col : string) :
  0 <= data_score_of to_datetime str_of_float df config user_col <= 90.
Proof.
  unfold data_score_of, analysis_of.
  destruct (analyze_column_data to_datetime str_of_float df user_col)
    as [e|a] eqn:Ea; [unfold bind, dget_default; simpl; lia|].
  rewrite bind_inr.
  destruct (infer_of_profile to_datetime str_of_float df user_col a Ea)
    as (scores & Hs & Hok & _).
  rewrite Hs, bind_inr. simpl snd. unfold dget_default.
  destruct (dget scores (type config)) as [v|] eqn:Ev; [|lia].
  apply dget_In in Ev. unfold scores_ok in Hok. rewrite Forall_forall in Hok.
  exact (proj2 (Hok _ Ev)).
Qed.

Lemma data_score_of_date (config : column_config) (user_col : string) :
  type config = "date" ->
  data_score_of to_datetime str_of_float df config user_col = 0.
Proof.
  intros Ht. unfold data_score_of, analysis_of. rewrite Ht.
  destruct (analyze_column_data to_datetime str_of_float df user_col)
    as [e|a]; [reflexivity|].
  rewrite bind_inr.
  destruct (infer_column_type to_datetime str_of_float df user_col (Some a))
    as [e|scores] eqn:Es; [reflexivity|].
  rewrite bind_inr. simpl snd. unfold dget_default.
  now rewrite (infer_date_zero to_datetime str_of_float df user_col _ _ Es).
Qed.

(** X18.  A field of type date is matched on its name alone: the data
    score in its entry is 0, whatever the column holds, so the name
    similarity times the name weight has to reach 50 by itself. *)
Theorem hybrid_map_columns_date_fields (max_columns : Z) :
  exists mapping,
    hybrid_map_columns ratio to_datetime str_of_float self df
                       name_weight data_weight max_columns = inr mapping
    /\ forall f e,
         dget mapping f = Some e ->
         exists config ns,
           In (f, config) (standard_columns self)
           /\ name_score e = Some ns
           /\ (type config = "date" ->
               data_score e = Some 0
               /\ (50 <= inject_Z ns * name_weight)%Q).
Proof.
  eexists. split; [apply hybrid_map_columns_eq|].
  intros f e Hget. apply dget_In, hybrid_mapping_In in Hget.
  destruct Hget as (cfg & Hcfg & He).
  apply hybrid_entry_columns in He.
  destruct He as (_ & Hns & Hds & _ & Hclr & _).
  exists cfg, (best_name_score ratio cfg (user_column e)).
  split; [exact Hcfg|]. split; [exact Hns|].
  intros Ht. rewrite Hds, (data_score_of_date cfg _ Ht). split; [reflexivity|].
  unfold clears in Hclr. apply Qle_bool_iff in Hclr.
  unfold combined_of, combined in Hclr.
  rewrite (data_score_of_date cfg _ Ht) in Hclr.
  change (inject_Z 0) with 0%Q in Hclr. lra.
Qed.

(** X19.  With a similarity that never exceeds 100 and weights that are
    not negative and add up to at most 1, every entry of the hybrid
    mapping has a name score between 0 and 100, a data score between 0
    and 90, and a confidence between 50 and 100. *)
Theorem hybrid_map_columns_confidence_range (max_columns : Z) :
  ratio_contract ratio ->
  (0 <= name_weight)%Q -> (0 <= data_weight)%Q ->
  (name_weight + data_weight <= 1)%Q ->
  exists mapping,
    hybrid_map_columns ratio to_datetime str_of_float self df
                       name_weight data_weight max_columns = inr mapping
    /\ forall f e,
         dget mapping f = Some e ->
         (50 <= confidence e <= 100)%Q
         /\ exists ns ds,
              name_score e = Some ns /\ data_score e = Some ds
              /\ 0 <= ns <= 100 /\ 0 <= ds <= 90.
Proof.
  intros Hc Hn Hd Hsum.
  eexists. split; [apply hybrid_map_columns_eq|].
  intros f e Hget. apply dget_In, hybrid_mapping_In in Hget.
  destruct Hget as (cfg & Hcfg & He).
  apply hybrid_entry_columns in He.
  destruct He as (_ & Hns & Hds & Hconf & Hclr & _).
  pose proof (best_name_score_range ratio cfg (user_column e) Hc) as Hnr.
  pose proof (data_score_of_range cfg (user_column e)) as Hdr.
  split.
  - rewrite Hconf. unfold clears in Hclr. apply Qle_bool_iff in Hclr.
    assert (E50 : (50 == inject_Z 500 / 10)%Q) by reflexivity.
    assert (E100 : (100 == inject_Z 1000 / 10)%Q) by reflexivity.
    split.
    + rewrite E50. apply py_round1_ge. now rewrite <- E50.
    + rewrite E100. apply py_round1_le. rewrite <- E100.
      unfold combined_of, combined.
      set (ns := best_name_score ratio cfg (user_column e)) in *.
      set (ds := data_score_of to_datetime str_of_float df cfg (user_column e))
        in *.
      assert (H1 : (inject_Z ns * name_weight <= 100 * name_weight)%Q).
      { apply Qmult_le_compat_r; [|exact Hn].
        change 100%Q with (inject_Z 100). rewrite <- Zle_Qle. lia. }
      assert (H2 : (inject_Z ds * data_weight <= 100 * data_weight)%Q).
      { apply Qmult_le_compat_r; [|exact Hd].
        change 100%Q with (inject_Z 100). rewrite <- Zle_Qle. lia. }
      lra.
  - do 2 eexists. split; [exact Hns|]. split; [exact Hds|]. now split.
Qed.
End HybridScores.

(** ** Applying a mapping whose entries share a column *)

(** The columns the entries select, entry by entry. *)
Definition selected_columns (mapping : dict mapping_entry) : list string :=
  map (fun item => user_column (snd item)) mapping.

(** The field of the last entry of the mapping that selects [user_col]. *)
Fixpoint last_field (mapping : dict mapping_entry) (user_col : string)
  : option string :=
  match mapping with
  | [] => None
  | (std_col, info) :: mapping' =>
      match last_field mapping' user_col with
      | Some f => Some f
      | None =>
          if String.eqb (user_column info) user_col then Some std_col else None
      end
  end.

Lemma last_field_some (mapping : dict mapping_entry) (user_col : string) :
  In user_col (selected_columns mapping) ->
  exists f, last_field mapping user_col = Some f.
Proof.
  induction mapping as [|[f e] mapping IH]; simpl; [tauto|].
  intros [H|H].
  - destruct (last_field mapping user_col) as [g|]; [now eexists|].
    rewrite H, String.eqb_refl. now eexists.
  - destruct (IH H) as (g & ->). now eexists.
Qed.

Lemma last_field_In (mapping : dict mapping_entry) (user_col f : string) :
  last_field mapping user_col = Some f ->
  exists e, In (f, e) mapping /\ user_column e = user_col.
Proof.
  induction mapping as [|[g e] mapping IH]; simpl; [discriminate|].
  destruct (last_field mapping user_col) as [g'|].
  - intros [= ->]. destruct (IH eq_refl) as (e' & Hin & Hu).
    exists e'. split; [now right | exact Hu].
  - destruct (String.eqb_spec (user_column e) user_col) as [Hu|_];
      [|discriminate].
    intros [= ->]. exists e. split; [now left | exact Hu].
Qed.

Lemma rename_dict_get_loop (mapping : dict mapping_entry) (acc : dict string)
  (user_col : string) :
  dget
    (fold_left
       (fun rename_dict (item : string * mapping_entry) =>
          let '(std_col, info) := item in
          let user_col := user_column info in
          dset user_col std_col rename_dict)
       mapping acc) user_col
  = match last_field mapping user_col with
    | Some f => Some f
    | None => dget acc user_col
    end.
Proof.
  revert acc. induction mapping as [|[f e] mapping IH]; intros acc; simpl.
  - reflexivity.
  - rewrite IH. destruct (last_field mapping user_col); [reflexivity|].
    rewrite dget_dset. now destruct (String.eqb (user_column e) user_col).
Qed.

Lemma build_rename_dict_get (mapping : dict mapping_entry) (user_col : string) :
  dget (build_rename_dict mapping) user_col = last_field mapping user_col.
Proof.
  unfold build_rename_dict. rewrite rename_dict_get_loop.
  now destruct (last_field mapping user_col).
Qed.

Lemma filter_filter {A : Type} (p q : A -> bool) (l : list A) :
  filter p (filter q l) = filter (fun x => q x && p x) l.
Proof.
  induction l as [|a l IH]; simpl; [reflexivity|].
  destruct (q a); simpl; [|exact IH].
  destruct (p a); now rewrite IH.
Qed.

Lemma rename_dict_keys_loop (mapping : dict mapping_entry) (acc : dict string) :
  keys
    (fold_left
       (fun rename_dict (item : string * mapping_entry) =>
          let '(std_col, info) := item in
          let user_col := user_column info in
          dset user_col std_col rename_dict)
       mapping acc)
  = keys acc
    ++ filter (fun u => negb (dmem u acc))
              (distinct String.eqb (selected_columns mapping)).
Proof.
  revert acc. induction mapping as [|[f e] mapping IH]; intros acc; simpl.
  - now rewrite app_nil_r.
  - rewrite IH, keys_dset.
    rewrite (filter_ext
               (fun u => negb (dmem u (dset (user_column e) f acc)))
               (fun u => negb (String.eqb (user_column e) u)
                         && negb (dmem u acc))).
    + rewrite filter_filter.
      destruct (dmem (user_column e) acc); simpl; [reflexivity|].
      now rewrite <- app_assoc.
    + intros u. unfold dmem. rewrite dget_dset.
      destruct (String.eqb (user_column e) u); [reflexivity|].
      now destruct (dget acc u).
Qed.

(** The keys of the rename dictionary: the selected columns, each once, in
    the order in which they are first selected. *)
Lemma build_rename_dict_keys (mapping : dict mapping_entry) :
  keys (build_rename_dict mapping)
  = distinct String.eqb (selected_columns mapping).
Proof.
  unfold build_rename_dict. rewrite rename_dict_keys_loop. simpl keys.
  simpl app.
  induction (distinct String.eqb (selected_columns mapping)) as [|a l IH];
    simpl; [reflexivity | now rewrite IH].
Qed.

Lemma distinct_In (l : list string) (x : string) :
  In x (distinct String.eqb l) <-> In x l.
Proof.
  induction l as [|a l IH]; simpl; [tauto|].
  rewrite filter_In, IH. split.
  - intros [H|[H _]]; [now left | now right].
  - intros [H|H]; [now left|].
    destruct (String.eqb_spec a x) as [E|E]; [now left|].
    right. split; [exact H | reflexivity].
Qed.


Lemma getitem_columns_labels (df : DataFrame) (labels : list string)
  (acc : list (string * Series)) :
  (forall u, In u labels -> exists s, getitem df u = inr (SelSeries s)) ->
  exists cols,
    foldM
      (fun acc label =>
         match filter (fun c => String.eqb (fst c) label) (frame_columns df) with
         | [] => raise (KeyError label)
         | found => ret (acc ++ found)
         end)
      labels acc
    = inr (acc ++ cols)
    /\ Forall2
         (fun u (col : string * Series) =>
            fst col = u /\ getitem df u = inr (SelSeries (snd col)))
         labels cols.
Proof.
  revert acc. induction labels as [|u labels IH]; intros acc H; simpl.
  - exists []. split; [now rewrite app_nil_r | constructor].
  - destruct (H u (or_introl eq_refl)) as (s & Hs).
    rewrite (getitem_filter _ _ _ Hs). simpl.
    destruct (IH (acc ++ [(u, s)])) as (cols & Hcols & Hall);
      [intros u' Hu'; apply H; now right|].
    exists ((u, s) :: cols). split.
    + rewrite Hcols. now rewrite <- app_assoc.
    + constructor; [now split | exact Hall].
Qed.


Lemma rename_labels (df : DataFrame) (mapping : dict mapping_entry)
  (labels : list string) (cols : list (string * Series)) :
  (forall u, In u labels -> In u (selected_columns mapping)) ->
  Forall2
    (fun u (col : string * Series) =>
       fst col = u /\ getitem df u = inr (SelSeries (snd col)))
    labels cols ->
  Forall2
    (fun u (col : string * Series) =>
       last_field mapping u = Some (fst col)
       /\ getitem df u = inr (SelSeries (snd col)))
    labels
    (map (fun c => (dget_default (build_rename_dict mapping) (fst c) (fst c),
                    snd c))
         cols).
Proof.
  intros Hlab Hall.
  induction Hall as [|u [l s] labels cs [Hl Hs] Hrest IH]; simpl map.
  - constructor.
  - simpl in Hl, Hs. subst l. constructor.
    + simpl fst. simpl snd. split; [|exact Hs].
      unfold dget_default. rewrite build_rename_dict_get.
      destruct (last_field_some mapping u (Hlab u (or_introl eq_refl)))
        as (f & ->).
      reflexivity.
    + apply IH. intros u' Hu'. apply Hlab. now right.
Qed.

(** X20.  The general shape of the frame [apply_mapping] returns when
    every selected column labels one column of the input: one column for
    each distinct selected column, in the order in which the mapping first
    selects them, holding that column's series and labelled by the field
    of the last entry that selects it.  Fields that share a column with a
    later field get no column. *)
Theorem apply_mapping_last_field_wins (h : heap) (df : ref)
  (mapping : dict mapping_entry) :
  (df < List.length h)%nat ->
  (forall f e, In (f, e) mapping ->
               exists s, getitem (deref h df) (user_column e) = inr (SelSeries s)) ->
  exists h' df_mapped,
    apply_mapping h df mapping = inr (h', df_mapped)
    /\ index_length (deref h' df_mapped) = index_length (deref h df)
    /\ Forall2
         (fun user_col (col : string * Series) =>
            last_field mapping user_col = Some (fst col)
            /\ getitem (deref h df) user_col = inr (SelSeries (snd col)))
         (distinct String.eqb (selected_columns mapping))
         (frame_columns (deref h' df_mapped)).
Proof.
  intros Hdf Hocc.
  assert (Hlab : forall u,
             In u (distinct String.eqb (selected_columns mapping)) ->
             In u (selected_columns mapping))
    by (intros u; apply distinct_In).
  assert (Hsel : forall u, In u (distinct String.eqb (selected_columns mapping)) ->
                   exists s, getitem (deref h df) u = inr (SelSeries s)).
  { intros u Hu. apply Hlab in Hu. unfold selected_columns in Hu.
    apply in_map_iff in Hu. destruct Hu as ([f e] & <- & Hin).
    exact (Hocc f e Hin). }
  destruct (getitem_columns_labels (deref h df) _ [] Hsel) as (cols & Hcols & Hall).
  pose proof (rename_labels (deref h df) mapping _ cols Hlab Hall) as Hren.
  unfold apply_mapping, getitem_columns. rewrite build_rename_dict_keys.
  rewrite Hcols, !bind_inr. simpl app.
  set (selected := mk_frame (index_length (deref h df)) cols).
  set (rd := build_rename_dict mapping) in *.
  unfold alloc. cbv zeta. cbn [fst snd].
  set (h1 := h ++ [selected]).
  set (h2 := h1 ++ [deref h1 (List.length h)]).
  assert (Hlen1 : List.length h1 = S (List.length h))
    by (unfold h1; rewrite length_app; simpl; lia).
  assert (Hlen2 : List.length h2 = S (S (List.length h)))
    by (unfold h2; rewrite length_app; simpl; lia).
  assert (Hs1 : deref h1 (List.length h) = selected).
  { unfold deref, h1. rewrite app_nth2 by lia. now rewrite Nat.sub_diag. }
  assert (Hcopy : deref h2 (List.length h1) = selected).
  { unfold deref at 1, h2. rewrite app_nth2 by lia.
    rewrite Nat.sub_diag. exact Hs1. }
  do 2 eexists. split; [reflexivity|].
  rewrite deref_store_same by lia. rewrite Hcopy.
  split; [reflexivity|]. exact Hren.
Qed.


(** ** Validating the hybrid mapping *)



(** ** The further properties on the inputs of the tests *)


(** [amount] is an alias of [quantity] and of [unitprice]; [quantity] comes
    first in the catalog. *)
Lemma find_best_match_first_on_tie_witness :
  find_best_match fuzz_ratio ecommerce "amount" = (Some "quantity", 100)
  /\ exists before after,
       alias_scores fuzz_ratio ecommerce "amount"
       = before ++ ("quantity", 100) :: after
       /\ Forall (fun p => snd p < 100) before
       /\ Forall (fun p => snd p <= 100) after.
Proof.
  split; [vm_compute; reflexivity|].
  apply (find_best_match_first_on_tie fuzz_ratio ecommerce "amount").
  vm_compute. reflexivity.
Defined.

Lemma find_best_match_exact_alias_witness :
  ratio_contract fuzz_ratio
  /\ In ("unitprice", unitprice_config) (standard_columns ecommerce)
  /\ In "unit_price" (names unitprice_config)
  /\ normalize_column_name "unit_price" = normalize_column_name "Unit Price"
  /\ exists std_col config' alias',
       find_best_match fuzz_ratio ecommerce "Unit Price" = (Some std_col, 100)
       /\ In (std_col, config') (standard_columns ecommerce)
       /\ In alias' (names config')
       /\ calculate_similarity fuzz_ratio "Unit Price" alias' = 100.
Proof.
  assert (H1 : In ("unitprice", unitprice_config) (standard_columns ecommerce))
    by (simpl; tauto).
  assert (H2 : In "unit_price" (names unitprice_config)) by (simpl; tauto).
  split; [exact fuzz_ratio_contract|]. split; [exact H1|]. split; [exact H2|].
  split; [reflexivity|].
  exact (find_best_match_exact_alias fuzz_ratio ecommerce "Unit Price"
           "unitprice" "unit_price" unitprice_config fuzz_ratio_contract
           H1 H2 eq_refl).
Defined.


(** The ten dates of [order_dates], then two values that are no dates. *)
Definition order_dates_longer : DataFrame :=
  mk_frame 12
    [ ("OrderDate",
       ObjectSeries
         (map Some
            [ "2024-01-01"; "2024-01-02"; "2024-01-03"; "2024-01-04";
              "2024-01-05"; "2024-01-06"; "2024-01-07"; "2024-01-08";
              "2024-01-09"; "2024-01-10"; "to be confirmed"; "unknown" ])) ].

Lemma analyze_column_data_flags_witness :
  exists p,
    analyze_column_data to_datetime_iso str_of_float_int order_dates "OrderDate"
    = inr p
    /\ (is_numeric p = true -> is_date p = false /\ avg_length p = None)
    /\ (is_numeric p = false -> numeric_range p = None)
    /\ (is_date p = true -> exists avg, avg_length p = Some avg)
    /\ (is_id p = true <-> (9 # 10 <= unique_ratio p)%Q)
    /\ (0 <= unique_ratio p)%Q /\ (0 <= missing_ratio p)%Q.
Proof.
  eexists. split; [reflexivity|].
  apply (analyze_column_data_flags to_datetime_iso str_of_float_int
           order_dates "OrderDate").
  reflexivity.
Defined.

Lemma analyze_column_data_ratios_witness :
  exists s p,
    getitem ratings "Rating" = inr (SelSeries s)
    /\ series_length s = index_length ratings
    /\ analyze_column_data to_datetime_iso str_of_float_int ratings "Rating"
       = inr p
    /\ (unique_ratio p + missing_ratio p <= 1)%Q
    /\ (unique_ratio p <= 1)%Q /\ (missing_ratio p <= 1)%Q
    /\ (index_length ratings = 0%nat ->
        unique_ratio p = 0%Q /\ missing_ratio p = 0%Q /\ is_id p = false).
Proof.
  do 2 eexists. split; [reflexivity|]. split; [reflexivity|].
  split; [reflexivity|].
  apply (analyze_column_data_ratios to_datetime_iso str_of_float_int
           ratings "Rating" _ _ eq_refl eq_refl eq_refl).
Defined.

Lemma analyze_column_data_sample_witness :
  exists d1 d2 p1 p2,
    getitem order_dates "OrderDate" = inr (SelSeries (ObjectSeries d1))
    /\ getitem order_dates_longer "OrderDate"
       = inr (SelSeries (ObjectSeries d2))
    /\ firstn 10 (dropna d1) = firstn 10 (dropna d2)
    /\ d1 <> d2
    /\ analyze_column_data to_datetime_iso str_of_float_int order_dates
                           "OrderDate" = inr p1
    /\ analyze_column_data to_datetime_iso str_of_float_int order_dates_longer
                           "OrderDate" = inr p2
    /\ is_date p1 = is_date p2 /\ avg_length p1 = avg_length p2.
Proof.
  do 4 eexists. split; [reflexivity|]. split; [reflexivity|].
  split; [reflexivity|]. split; [discriminate|].
  split; [reflexivity|]. split; [reflexivity|].
  apply (analyze_column_data_sample to_datetime_iso str_of_float_int
           order_dates order_dates_longer "OrderDate" "OrderDate"
           _ _ _ _ eq_refl eq_refl eq_refl eq_refl eq_refl).
Defined.

Lemma infer_column_type_scores_in_range_witness :
  exists p,
    analyze_column_data to_datetime_iso str_of_float_int all_missing "Price"
    = inr p
    /\ exists scores,
         infer_column_type to_datetime_iso str_of_float_int all_missing "Price"
                           (Some p) = inr scores
         /\ infer_column_type to_datetime_iso str_of_float_int all_missing
                              "Price" None = inr scores
         /\ (forall k v, In (k, v) scores -> In k type_tags /\ 0 <= v <= 90)
         /\ (dget scores "text" = None <->
             is_numeric p = false /\ avg_length p = None).
Proof.
  eexists. split; [reflexivity|].
  apply (infer_column_type_scores_in_range to_datetime_iso str_of_float_int
           all_missing "Price").
  reflexivity.
Defined.

Lemma infer_column_type_never_scores_date_witness :
  is_date order_dates_profile = true
  /\ exists scores,
       infer_column_type to_datetime_iso str_of_float_int order_dates
                         "OrderDate" (Some order_dates_profile) = inr scores
       /\ dget scores "date" = Some 0
       /\ dget_default scores "date" 0 = 0.
Proof.
  split; [reflexivity|]. eexists. split; [reflexivity|].
  apply (infer_column_type_never_scores_date to_datetime_iso str_of_float_int
           order_dates "OrderDate" (Some order_dates_profile)).
  reflexivity.
Defined.

Lemma hybrid_map_columns_confidence_range_witness :
  ratio_contract fuzz_ratio
  /\ (0 <= 6 # 10)%Q /\ (0 <= 4 # 10)%Q /\ ((6 # 10) + (4 # 10) <= 1)%Q
  /\ exists mapping,
       hybrid_map_columns fuzz_ratio to_datetime_iso str_of_float_int ecommerce
                          hybrid_vs_name_only (6 # 10) (4 # 10) 200
       = inr mapping
       /\ forall f e,
            dget mapping f = Some e ->
            (50 <= confidence e <= 100)%Q
            /\ exists ns ds,
                 name_score e = Some ns /\ data_score e = Some ds
                 /\ 0 <= ns <= 100 /\ 0 <= ds <= 90.
Proof.
  assert (H1 : (0 <= 6 # 10)%Q) by discriminate.
  assert (H2 : (0 <= 4 # 10)%Q) by discriminate.
  assert (H3 : ((6 # 10) + (4 # 10) <= 1)%Q) by discriminate.
  split; [exact fuzz_ratio_contract|]. split; [exact H1|]. split; [exact H2|].
  split; [exact H3|].
  exact (hybrid_map_columns_confidence_range fuzz_ratio to_datetime_iso
           str_of_float_int ecommerce hybrid_vs_name_only (6 # 10) (4 # 10) 200
           fuzz_ratio_contract H1 H2 H3).
Defined.

(** [amount] is selected for [quantity] and for [unitprice]: the frame
    returned has the two columns [customerid] and [unitprice]. *)
Lemma apply_mapping_last_field_wins_witness :
  (0 < List.length [hybrid_vs_name_only])%nat
  /\ (forall f e, In (f, e) hybrid_vs_name_only_result ->
                  exists s, getitem (deref [hybrid_vs_name_only] 0%nat)
                                    (user_column e) = inr (SelSeries s))
  /\ distinct String.eqb (selected_columns hybrid_vs_name_only_result)
     = ["user"; "amount"]
  /\ exists h' df_mapped,
       apply_mapping [hybrid_vs_name_only] 0%nat hybrid_vs_name_only_result
       = inr (h', df_mapped)
       /\ index_length (deref h' df_mapped)
          = index_length (deref [hybrid_vs_name_only] 0%nat)
       /\ Forall2
            (fun user_col (col : string * Series) =>
               last_field hybrid_vs_name_only_result user_col = Some (fst col)
               /\ getitem (deref [hybrid_vs_name_only] 0%nat) user_col
                  = inr (SelSeries (snd col)))
            (distinct String.eqb (selected_columns hybrid_vs_name_only_result))
            (frame_columns (deref h' df_mapped)).
Proof.
  assert (Hocc : forall f e, In (f, e) hybrid_vs_name_only_result ->
                   exists s, getitem (deref [hybrid_vs_name_only] 0%nat)
                                     (user_column e) = inr (SelSeries s)).
  { intros f e Hin. simpl in Hin.
    destruct Hin as [H|[H|[H|[]]]]; injection H as <- <-;
      eexists; reflexivity. }
  split; [simpl; lia|]. split; [exact Hocc|]. split; [reflexivity|].
  apply (apply_mapping_last_field_wins [hybrid_vs_name_only] 0%nat
           hybrid_vs_name_only_result); [simpl; lia | exact Hocc].
Defined.


